(** * First Mile Monitor: the reconciliation pipeline of [fmlm.py]

    The script joins courier scan events to order records, normalises a few
    columns row by row, derives a pick status, shows two counters, applies
    the multi-select filters and projects the visible columns.

    Data model of this development:
    - a cell of a data frame is a Python object: [None], an [int], a
      [float] (an IEEE 754 value, [nan] included) or a [str]; timestamps
      take part in no computation of the script and are carried as text;
    - a row (the [Series] handed to a row function by
      [DataFrame.apply(axis=1)]) is a finite map from column names to cells;
      reading a missing column raises [KeyError], assigning creates it;
    - a frame is its column index together with the sequence of its rows;
    - an exception is a value of [exn]; code that may raise returns a
      [result].
    The two builtins whose text formats are Python's own, [float] on a
    [str] and [str] on a [float], are the interface [Builtins]. *)

From Stdlib Require Import ZArith Ascii String List Lia.
From Stdlib Require Import Floats.SpecFloat.
From stdpp Require Import base strings gmap list pretty.

Local Open Scope Z_scope.
Local Open Scope string_scope.

(** ** Cells *)

Inductive cell : Type :=
  | CNone
  | CInt (z : Z)
  | CFloat (f : spec_float)
  | CStr (s : string).

#[global] Instance spec_float_eq_dec : EqDecision spec_float.
Proof. solve_decision. Defined.

#[global] Instance cell_eq_dec : EqDecision cell.
Proof. solve_decision. Defined.

(** The missing value pandas fills unmatched columns with. *)
Definition NaN : cell := CFloat S754_nan.

(** [pandas.isna] on a scalar. *)
Definition isna (c : cell) : bool :=
  match c with
  | CNone => true
  | CFloat S754_nan => true
  | _ => false
  end.

(** [c == 0] *)
Definition eq_zero (c : cell) : bool :=
  match c with
  | CInt 0 => true
  | CFloat (S754_zero _) => true
  | _ => false
  end.

(** ** Exceptions *)

Inductive exn : Type :=
  | KeyError (k : string)
  | TypeError
  | ValueError
  | OverflowError.

Inductive result (A : Type) : Type :=
  | Ok (a : A)
  | Raise (e : exn).

Arguments Ok {A} a.
Arguments Raise {A} e.

#[global] Instance result_ret : MRet result := λ A a, Ok a.
#[global] Instance result_bind : MBind result := λ A B f m,
  match m with
  | Ok a => f a
  | Raise e => Raise e
  end.

Definition is_ok {A} (m : result A) : bool :=
  match m with Ok _ => true | Raise _ => false end.

(** ** Builtins *)

Class Builtins : Type := {
  (** [float(s)] for a [str]: [None] stands for [ValueError] *)
  float_of_str : string → option spec_float;
  (** [str(x)] for a [float] *)
  str_of_float : spec_float → string
}.

(** [float(n)] for an [int]: the nearest binary64 value, [OverflowError]
    beyond the range. *)
Definition float_of_int (z : Z) : result spec_float :=
  match binary_normalize 53 1024 z 0 false with
  | S754_infinity _ => Raise OverflowError
  | f => Ok f
  end.

Section builtins.
Context `{B : Builtins}.

(** [float(c)] *)
Definition py_float (c : cell) : result spec_float :=
  match c with
  | CNone => Raise TypeError
  | CInt z => float_of_int z
  | CFloat f => Ok f
  | CStr s =>
      match float_of_str s with
      | Some f => Ok f
      | None => Raise ValueError
      end
  end.

(** [str(c)] *)
Definition py_str (c : cell) : string :=
  match c with
  | CNone => "None"
  | CInt z => pretty z
  | CFloat f => str_of_float f
  | CStr s => s
  end.
End builtins.

(** ** Rows *)

Abbreviation row := (gmap string cell).

(** [row[k]] *)
Definition getitem (r : row) (k : string) : result cell :=
  match r !! k with
  | Some c => Ok c
  | None => Raise (KeyError k)
  end.

(** ** The row functions *)

Section row_functions.
Context `{B : Builtins}.

Definition refactor_lo_code (r : row) : result row :=
  v ← getitem r "lo_code";
  if negb (isna v)
  then Ok (<["lo_code" := CStr ("LO-" +:+ py_str v)]> r)
  else Ok r.

Definition normalize_coordinates (r : row) : result row :=
  lat ← getitem r "lat";
  flat ← py_float lat;
  let r1 := <["lat" := CFloat flat]> r in
  lon ← getitem r1 "lon";
  flon ← py_float lon;
  Ok (<["lon" := CFloat flon]> r1).

Definition set_barcode_image (r : row) : result row :=
  barcode ← getitem r "scanned_barcode_value";
  Ok (<["scannable_qr" :=
          CStr ("http://qrcoder.ru/code/?" +:+ py_str barcode +:+ "&4&0")]> r).
End row_functions.

Definition normalize_tariffs (r : row) : result row :=
  t ← getitem r "tariff";
  if isna t then Ok (<["tariff" := CStr "Unknown"]> r)
  else
    t' ← getitem r "tariff";
    if eq_zero t' then Ok (<["tariff" := CStr "SDD"]> r)
    else Ok (<["tariff" := CStr "NDD"]> r).

Definition set_status (r : row) : result row :=
  b ← getitem r "barcode";
  if isna b then Ok (<["pick_status" := CStr "Missing"]> r)
  else
    c ← getitem r "claim_id";
    if isna c then Ok (<["pick_status" := CStr "Picked"]> r)
    else Ok (<["pick_status" := CStr "Received"]> r).


(** ** Frames *)

Record frame : Type := DataFrame { columns : list string; rows : list row }.

(** [len(frame)] *)
Definition len (fr : frame) : nat := length (rows fr).

(** [frame[k]]: the cells of column [k], [KeyError] when the frame has no
    such column. *)
Definition getcolumn (fr : frame) (k : string) : result (list cell) :=
  if bool_decide (k ∈ columns fr)
  then Ok ((λ r, default NaN (r !! k)) <$> rows fr)
  else Raise (KeyError k).

(** [frame[mask]] for a boolean mask aligned with the rows. *)
Fixpoint select_rows (mask : list bool) (rs : list row) : list row :=
  match mask, rs with
  | b :: mask', r :: rs' =>
      if b then r :: select_rows mask' rs' else select_rows mask' rs'
  | _, _ => []
  end.

Definition boolean_index (fr : frame) (mask : list bool) : frame :=
  DataFrame (columns fr) (select_rows mask (rows fr)).

(** [frame.apply(f, axis=1)] for a function that returns the row it was
    given: every row is handed to [f] in turn and an exception of [f] leaves
    the call; the result takes its columns from the returned rows.  A frame
    without rows is returned as it is. *)
Fixpoint map_rows (f : row → result row) (rs : list row) : result (list row) :=
  match rs with
  | [] => Ok []
  | r :: rs' =>
      r' ← f r;
      rs'' ← map_rows f rs';
      Ok (r' :: rs'')
  end.

Definition row_index (r : row) : list string := elements (dom r).

Definition apply_rows (f : row → result row) (fr : frame) : result frame :=
  match rows fr with
  | [] => Ok fr
  | _ :: _ =>
      rs ← map_rows f (rows fr);
      Ok (DataFrame (from_option row_index (columns fr) (head rs)) rs)
  end.

(** ** The two sources *)

(** A nullable text value as the database drivers hand it over: a [str]
    or [None]. *)
Definition of_nullable (v : option string) : cell :=
  match v with
  | Some s => CStr s
  | None => CNone
  end.

(** A tuple of the orders query, in the order of its select list, under the
    names the script gives the columns.  The columns the script treats as
    text are nullable text; [tariff] is whatever the driver returns. *)
Record order : Type := Order {
  barcode : option string;
  external_id : option string;
  lo_code : option string;
  request_id : option string;
  claim_id : option string;
  tariff : cell;
  platform_status : option string;
  cargo_status : option string;
  created_at : option string;
  proxy_client_id : option string
}.

Definition proxy_columns : list string :=
  ["barcode"; "external_id"; "lo_code"; "request_id"; "claim_id";
   "tariff"; "platform_status"; "cargo_status"; "created_at"; "proxy_client_id"].

Definition order_cells (o : order) : list cell :=
  [of_nullable (barcode o); of_nullable (external_id o);
   of_nullable (lo_code o); of_nullable (request_id o);
   of_nullable (claim_id o); tariff o; of_nullable (platform_status o);
   of_nullable (cargo_status o); of_nullable (created_at o);
   of_nullable (proxy_client_id o)].

(** One row of [pandas.DataFrame(tuples, columns=names)]. *)
Definition make_row (names : list string) (cells : list cell) : row :=
  list_to_map (zip names cells).

Definition order_row (o : order) : row := make_row proxy_columns (order_cells o).

(** A row of the scan query: [json_value] yields a [STRING] or [NULL]. *)
Record scan : Type := Scan {
  scan_dttm : string;
  corp_client_id : option string;
  courier_uuid : option string;
  scanned_barcode_value : option string;
  store_name : option string;
  lat : option string;
  lon : option string
}.

Definition scan_columns : list string :=
  ["scan_dttm"; "corp_client_id"; "courier_uuid"; "scanned_barcode_value";
   "store_name"; "lat"; "lon"].

Definition scan_cells (s : scan) : list cell :=
  [CStr (scan_dttm s); of_nullable (corp_client_id s);
   of_nullable (courier_uuid s); of_nullable (scanned_barcode_value s);
   of_nullable (store_name s); of_nullable (lat s); of_nullable (lon s)].

Definition scan_row (s : scan) : row := make_row scan_columns (scan_cells s).

Definition orders_frame (orders : list order) : frame :=
  DataFrame proxy_columns (order_row <$> orders).

Definition scans_frame (scans : list scan) : frame :=
  DataFrame scan_columns (scan_row <$> scans).

(** ** Dropping the retried orders *)

(** [pat in s]: some suffix of [s] starts with [pat]. *)
Fixpoint contains (pat s : string) : bool :=
  String.prefix pat s ||
  match s with
  | EmptyString => false
  | String _ s' => contains pat s'
  end.

(** One entry of [Series.str.contains(pat)]: the pattern of the script has
    no special character, so the search is for the text itself; an entry
    that is not a [str] gives a missing value. *)
Definition str_contains (pat : string) (c : cell) : option bool :=
  match c with
  | CStr s => Some (contains pat s)
  | _ => None
  end.

(** [~mask]: a missing entry cannot be negated. *)
Fixpoint invert (mask : list (option bool)) : result (list bool) :=
  match mask with
  | [] => Ok []
  | Some b :: mask' => bs ← invert mask'; Ok (negb b :: bs)
  | None :: _ => Raise TypeError
  end.

Definition drop_retries (fr : frame) : result frame :=
  ids ← getcolumn fr "external_id";
  keep ← invert (str_contains "_RETRY_" <$> ids);
  Ok (boolean_index fr keep).

(** ** The join *)

(** Two keys meet when they are the same text; missing keys meet each
    other. *)
Definition key_match (a b : cell) : bool :=
  if isna a then isna b else bool_decide (a = b).

(** The right-hand side of a row without a partner. *)
Definition missing_row (cols : list string) : row :=
  list_to_map ((λ k, (k, NaN)) <$> cols).

Definition join_row (right : frame) (right_on : string) (k : cell) (l : row)
  : list row :=
  match List.filter (λ r, key_match k (default NaN (r !! right_on))) (rows right) with
  | [] => [l ∪ missing_row (columns right)]
  | partners => (λ r, l ∪ r) <$> partners
  end.

(** [pandas.merge(left, right, how="left", left_on=.., right_on=..)] for
    frames that share no column name: the rows of [left] in their order,
    each with every partner of [right]. *)
Definition merge_left (left right : frame) (left_on right_on : string)
  : result frame :=
  _ ← getcolumn left left_on;
  _ ← getcolumn right right_on;
  Ok (DataFrame (columns left ++ columns right)
        (l ← rows left; join_row right right_on (default NaN (l !! left_on)) l)).

(** ** The scan query's time window *)

Record date : Type := Date { year : nat; month : nat; day : nat }.

Definition zfill (width : nat) (s : string) : string :=
  string_of_list_ascii (replicate (width - String.length s) "0"%char) +:+ s.

(** [str(d)] for a [datetime.date]: [YYYY-MM-DD]. *)
Definition isoformat (d : date) : string :=
  zfill 4 (pretty (year d)) +:+ "-" +:+ zfill 2 (pretty (month d)) +:+ "-"
  +:+ zfill 2 (pretty (day d)).

(** What an f-string makes of a bound of the window, a date or [None]. *)
Definition format_bound (b : option date) : string :=
  match b with
  | Some d => isoformat d
  | None => "None"
  end.

(** [a, b = t] *)
Definition unpack_pair {A} (t : list A) : option (A * A) :=
  match t with
  | [a; b] => Some (a, b)
  | _ => None
  end.

Definition between_filter (date_from date_to : option date) : string :=
  "WHERE DATETIME(timestamp, 'America/Santiago') BETWEEN '"
  +:+ format_bound date_from +:+ "' AND '" +:+ format_bound date_to +:+ "'".

Definition since_filter (date_from : option date) : string :=
  "WHERE DATETIME(timestamp, 'America/Santiago') >= '"
  +:+ format_bound date_from +:+ "'".

(** The [query_date_filter] of [get_scan_frame]; [date_limit] is the tuple
    of the date picker. *)
Definition query_date_filter (date_limit : list (option date)) : string :=
  match date_limit with
  | [] => ""
  | first :: _ =>
      let '(date_from, date_to) :=
        match unpack_pair date_limit with
        | Some bounds => bounds
        | None => (first, None)
        end in
      match date_to with
      | Some _ => between_filter date_from date_to
      | None => since_filter date_from
      end
  end.

(** ** The script from the join to the visible frame *)

(** [Series.isin(values)] on one cell. *)
Definition isin (values : list cell) (c : cell) : bool :=
  bool_decide (c ∈ values).

(** [frame[frame[k].isin(values)]] *)
Definition where_isin (fr : frame) (k : string) (values : list cell)
  : result frame :=
  cs ← getcolumn fr k;
  Ok (boolean_index fr (isin values <$> cs)).

(** [frame[frame[k] == v]] *)
Definition where_eq (fr : frame) (k : string) (v : cell) : result frame :=
  cs ← getcolumn fr k;
  Ok (boolean_index fr ((λ c, bool_decide (c = v)) <$> cs)).

(** [if values: frame = frame[frame[k].isin(values)]] *)
Definition narrow (fr : frame) (k : string) (values : list cell)
  : result frame :=
  match values with
  | [] => Ok fr
  | _ :: _ => where_isin fr k values
  end.

(** [frame[cols]] for a list of column names. *)
Definition project (fr : frame) (cols : list string) : result frame :=
  match List.find (λ k, negb (bool_decide (k ∈ columns fr))) cols with
  | Some k => Raise (KeyError k)
  | None =>
      Ok (DataFrame cols ((λ r : row, filter (λ kv, kv.1 ∈ cols) r) <$> rows fr))
  end.

Definition visible_columns : list string :=
  ["scan_dttm"; "created_at"; "scanned_barcode_value"; "pick_status"; "tariff";
   "corp_client_id"; "store_name"; "courier_uuid"; "external_id"; "lo_code";
   "claim_id"; "scannable_qr"].

(** The values picked in the four multi-select boxes. *)
Record selection : Type := Selection {
  couriers : list cell;
  clients : list cell;
  tariffs : list cell;
  filtered_statuses : list cell
}.

(** What the page shows: the two counters and the table. *)
Record page : Type := Page {
  scan_events : nat;
  scan_errors : nat;
  visible_frame : frame
}.

Section script.
Context `{B : Builtins}.

(** [merged_frame] as it stands before the multi-select boxes. *)
Definition merged_frame (scans : list scan) (orders : list order)
  : result frame :=
  proxy_frame ← drop_retries (orders_frame orders);
  fr ← merge_left (scans_frame scans) proxy_frame
         "scanned_barcode_value" "barcode";
  fr ← apply_rows set_barcode_image fr;
  fr ← apply_rows normalize_coordinates fr;
  fr ← apply_rows normalize_tariffs fr;
  fr ← apply_rows refactor_lo_code fr;
  apply_rows set_status fr.

(** The four [if ...: merged_frame = merged_frame[...]] in their order. *)
Definition apply_selection (fr : frame) (sel : selection) : result frame :=
  fr ← narrow fr "courier_uuid" (couriers sel);
  fr ← narrow fr "corp_client_id" (clients sel);
  fr ← narrow fr "tariff" (tariffs sel);
  narrow fr "pick_status" (filtered_statuses sel).

Definition script (scans : list scan) (orders : list order) (sel : selection)
  : result page :=
  fr ← merged_frame scans orders;
  _ ← getcolumn fr "courier_uuid";
  _ ← getcolumn fr "corp_client_id";
  _ ← getcolumn fr "tariff";
  _ ← getcolumn fr "pick_status";
  let events := len fr in
  missing ← where_eq fr "pick_status" (CStr "Missing");
  let errors := len missing in
  fr ← apply_selection fr sel;
  visible ← project fr visible_columns;
  Ok (Page events errors visible).
End script.

(** ** An instance of the builtins for examples

    [float] reads a plain decimal literal, an optional sign and at most
    fifteen digits around an optional point, to the nearest binary64 value;
    [str] prints the special values as Python does and a finite value by
    its mantissa and exponent.  Python reads more than this and prints
    finite values in decimal; the theorems below hold for every instance. *)
Module Sample.

Definition digit_value (a : ascii) : option Z :=
  let n := Z.of_nat (nat_of_ascii a) in
  if ((48 <=? n) && (n <=? 57))%Z then Some (n - 48) else None.

(** The digits at the head of [s]: their value after [acc], how many
    they are, and the rest of the text. *)
Fixpoint digits (s : string) (acc : Z) (n : nat) : Z * nat * string :=
  match s with
  | EmptyString => (acc, n, s)
  | String a s' =>
      match digit_value a with
      | Some d => digits s' (10 * acc + d) (S n)
      | None => (acc, n, s)
      end
  end.

Definition unsigned_literal (s : string) : option spec_float :=
  let '(whole, n1, rest) := digits s 0 0%nat in
  let '(mantissa, n2, rest') :=
    match rest with
    | String "." frac => digits frac whole 0%nat
    | _ => (whole, 0%nat, rest)
    end in
  match rest' with
  | EmptyString =>
      if bool_decide (0 < n1 + n2 ≤ 15)%nat
      then Some (SFdiv 53 1024
                   (binary_normalize 53 1024 mantissa 0 false)
                   (binary_normalize 53 1024 (10 ^ Z.of_nat n2) 0 false))
      else None
  | _ => None
  end.

Definition literal (s : string) : option spec_float :=
  match s with
  | String "-" s' => SFopp <$> unsigned_literal s'
  | String "+" s' => unsigned_literal s'
  | _ => unsigned_literal s
  end.

Definition print (f : spec_float) : string :=
  match f with
  | S754_nan => "nan"
  | S754_infinity false => "inf"
  | S754_infinity true => "-inf"
  | S754_zero false => "0.0"
  | S754_zero true => "-0.0"
  | S754_finite sign m e =>
      (if sign then "-" else "") +:+ pretty (Zpos m) +:+ "*2**" +:+ pretty e
  end.

Definition builtins : Builtins :=
  {| float_of_str := literal; str_of_float := print |}.

End Sample.

(** ** What the boxes offer *)

(** [Series.unique()]: the values in the order of their first appearance;
    [seen] holds the values met so far. *)
Fixpoint unique_from (seen : list cell) (cs : list cell) : list cell :=
  match cs with
  | [] => []
  | c :: cs' =>
      if bool_decide (c ∈ seen) then unique_from seen cs'
      else c :: unique_from (c :: seen) cs'
  end.

Definition unique (cs : list cell) : list cell := unique_from [] cs.

(** [frame[k].unique()], the values a multi-select box offers. *)
Definition options (fr : frame) (k : string) : result (list cell) :=
  cs ← getcolumn fr k;
  Ok (unique cs).

(** * Notions for the statements *)

(** The label [normalize_tariffs] chooses for a raw tariff. *)
Definition label_of (t : cell) : string :=
  if isna t then "Unknown" else if eq_zero t then "SDD" else "NDD".

(** The order is marked as a retry. *)
Definition retried (o : order) : bool :=
  match external_id o with
  | Some s => contains "_RETRY_" s
  | None => false
  end.

(** The orders a scanned code meets. *)
Definition partners (right : frame) (key : cell) : list row :=
  List.filter (λ r, key_match key (default NaN (r !! "barcode"))) (rows right).

(** The join key of a scan. *)
Definition scan_key (s : scan) : cell := of_nullable (scanned_barcode_value s).

(** The records of one scan. *)
Definition records_of (right : frame) (s : scan) : list row :=
  join_row right "barcode" (scan_key s) (scan_row s).

(** The orders that reach the join. *)
Definition kept (orders : list order) : list order :=
  List.filter (λ o, negb (retried o)) orders.

(** The joined frame of the script, before the five passes. *)
Definition joined (scans : list scan) (orders : list order) : frame :=
  DataFrame (scan_columns ++ proxy_columns)
    (scans ≫= records_of (orders_frame (kept orders))).

(** A set of picked values admits a cell when nothing is picked or the
    cell is one of the picked values (the spec's words). *)
Definition admits (values : list cell) (c : cell) : Prop :=
  values = [] ∨ c ∈ values.

(** The same as a test, the way [narrow] computes it. *)
Definition admitsb (values : list cell) (c : cell) : bool :=
  bool_decide (values = []) || isin values c.

(** The cell a frame shows for a row under a column. *)
Definition cell_at (r : row) (k : string) : cell := default NaN (r !! k).

(** A row passes a selection when each of the four sets admits its cell
    (the spec's words). *)
Definition passes (sel : selection) (r : row) : bool :=
  admitsb (couriers sel) (cell_at r "courier_uuid")
  && admitsb (clients sel) (cell_at r "corp_client_id")
  && admitsb (tariffs sel) (cell_at r "tariff")
  && admitsb (filtered_statuses sel) (cell_at r "pick_status").

(** The test of the second counter. *)
Definition is_missing (r : row) : bool :=
  bool_decide (cell_at r "pick_status" = CStr "Missing").

(** A row cut down to the visible columns. *)
Definition visible_part (r : row) : row :=
  filter (λ kv, kv.1 ∈ visible_columns) r.

(** Two runs agree: both return, with related values, or both raise the
    same exception. *)
Definition result_rel {A} (R : A → A → Prop) (m m' : result A) : Prop :=
  match m, m' with
  | Ok a, Ok a' => R a a'
  | Raise e, Raise e' => e = e'
  | _, _ => False
  end.

(** The same row but for a raw tariff with the same label. *)
Definition sim (r r' : row) : Prop :=
  (∀ k, k ≠ "tariff" → r !! k = r' !! k)
  ∧ label_of <$> r !! "tariff" = label_of <$> r' !! "tariff".

(** Frames with the same columns and related rows. *)
Definition frame_rel (R : row → row → Prop) (fr fr' : frame) : Prop :=
  columns fr = columns fr' ∧ Forall2 R (rows fr) (rows fr').

(** The order with another raw tariff. *)
Definition with_tariff (o : order) (t : cell) : order :=
  Order (barcode o) (external_id o) (lo_code o) (request_id o) (claim_id o)
    t (platform_status o) (cargo_status o) (created_at o) (proxy_client_id o).

Section row_notions.
Context `{B : Builtins}.

(** What [refactor_lo_code] shows for a lo_code. *)
Definition display_of (v : cell) : cell :=
  if isna v then v else CStr ("LO-" +:+ py_str v).

(** The link [set_barcode_image] builds for a scanned code. *)
Definition qr_of (code : cell) : cell :=
  CStr ("http://qrcoder.ru/code/?" +:+ py_str code +:+ "&4&0").

(** What the five passes make of one row. *)
Definition process_row (r : row) : result row :=
  r ← set_barcode_image r;
  r ← normalize_coordinates r;
  r ← normalize_tariffs r;
  r ← refactor_lo_code r;
  set_status r.

End row_notions.

(** The rows of a frame that show a given status. *)
Definition with_status (status : string) (fr : frame) : list row :=
  List.filter (λ r, bool_decide (cell_at r "pick_status" = CStr status)) (rows fr).

(** The coordinates of a scan can be coerced. *)
Definition coercible `{B : Builtins} (s : scan) : Prop :=
  is_ok (py_float (of_nullable (lat s))) = true
  ∧ is_ok (py_float (of_nullable (lon s))) = true.

(** ** A day of scans for the examples *)

Module Demo.

Definition scans : list scan :=
  [Scan "2023-08-15 10:02:11" (Some "corp-7") (Some "courier-1")
     (Some "XYZ999") (Some "Store A") (Some "-33.45") (Some "-70.66");
   Scan "2023-08-15 09:40:00" (Some "corp-7") (Some "courier-2")
     (Some "ABC123") (Some "Store B") (Some "-33.4") (Some "-70.6")].

Definition orders : list order :=
  [Order (Some "XYZ999") (Some "EXT-1") (Some "42") (Some "req-1") None
     (CInt 0) (Some "created") (Some "new") (Some "2023-08-14 18:00:00")
     (Some "client-1");
   Order (Some "XYZ999") (Some "EXT-1_RETRY_1") (Some "43") (Some "req-2")
     (Some "CL-1") (CInt 2) (Some "created") (Some "new")
     (Some "2023-08-14 19:00:00") (Some "client-1")].

(** A scan whose latitude is no number, and one without a position. *)
Definition unreadable_scan : scan :=
  Scan "2023-08-15 11:00:00" (Some "corp-7") (Some "courier-3")
    (Some "XYZ999") (Some "Store C") (Some "n/a") (Some "-70.6").

Definition unlocated_scan : scan :=
  Scan "2023-08-15 11:05:00" (Some "corp-7") (Some "courier-3")
    (Some "XYZ999") (Some "Store C") None None.

(** All four boxes empty. *)
Definition nothing_picked : selection := Selection [] [] [] [].

(** The frame of a run that returned. *)
Definition frame_of (m : result frame) : frame :=
  match m with
  | Ok fr => fr
  | Raise _ => DataFrame [] []
  end.

Definition proxy_frame : frame := frame_of (drop_retries (orders_frame orders)).

Definition joined_frame : frame :=
  frame_of (merge_left (scans_frame scans) proxy_frame
              "scanned_barcode_value" "barcode").

Definition merged : frame :=
  frame_of (merged_frame (B := Sample.builtins) scans orders).

Definition first_row (fr : frame) : row := default ∅ (head (rows fr)).

End Demo.

(** * Properties *)

(** ** The exception monad *)

Lemma bind_Ok {A C} (m : result A) (f : A → result C) (c : C) :
  m ≫= f = Ok c ↔ ∃ a, m = Ok a ∧ f a = Ok c.
Proof.
  destruct m as [a|e]; simpl; split.
  - intros H. exists a. split; [reflexivity | exact H].
  - intros (a' & Ha & H). injection Ha as ->. exact H.
  - discriminate.
  - intros (a' & Ha & _). discriminate.
Qed.

Lemma getitem_Ok (r : row) (k : string) (c : cell) :
  getitem r k = Ok c ↔ r !! k = Some c.
Proof.
  unfold getitem. destruct (r !! k); split; intros H; congruence.
Qed.

Ltac inv_ok :=
  repeat match goal with
  | H : _ ≫= _ = Ok _ |- _ => apply bind_Ok in H; destruct H as (? & ? & H)
  | H : getitem _ _ = Ok _ |- _ => apply getitem_Ok in H
  | H : Ok _ = Ok _ |- _ => injection H as H
  | H : Raise _ = Ok _ |- _ => discriminate H
  end.

(** A literal column name is in a literal column list. *)
Ltac column_in := apply (bool_decide_unpack _); vm_compute; exact I.

(** A lookup past assignments to other columns. *)
Ltac skip_inserts :=
  repeat match goal with
  | H : <[_:=_]> _ !! _ = _ |- _ => rewrite lookup_insert_ne in H by done
  end.

(** ** What each row function does to a row *)

Lemma set_status_Ok (r r' : row) :
  set_status r = Ok r' →
  ∃ b, r !! "barcode" = Some b ∧
    ((isna b = true ∧ r' = <["pick_status" := CStr "Missing"]> r) ∨
     (isna b = false ∧ ∃ c, r !! "claim_id" = Some c ∧
        r' = <["pick_status" := CStr (if isna c then "Picked" else "Received")]> r)).
Proof.
  unfold set_status. intros H. inv_ok. rename x into b. exists b.
  split; [assumption|].
  destruct (isna b) eqn:Hb.
  - left. inv_ok. auto.
  - right. inv_ok. split; [reflexivity|]. rename x into c. exists c.
    split; [assumption|]. destruct (isna c); inv_ok; auto.
Qed.

Lemma normalize_tariffs_Ok (r r' : row) :
  normalize_tariffs r = Ok r' ↔
  ∃ t, r !! "tariff" = Some t ∧ r' = <["tariff" := CStr (label_of t)]> r.
Proof.
  unfold normalize_tariffs, label_of. split.
  - intros H. inv_ok. rename x into t. exists t. split; [assumption|].
    destruct (isna t); inv_ok; [auto|].
    replace x with t in * by congruence.
    destruct (eq_zero t); inv_ok; auto.
  - intros (t & Ht & ->). unfold getitem. rewrite Ht. simpl.
    destruct (isna t); [reflexivity|].
    destruct (eq_zero t); reflexivity.
Qed.

Section row_function_facts.
Context `{B : Builtins}.

Lemma refactor_lo_code_Ok (r r' : row) :
  refactor_lo_code r = Ok r' ↔
  ∃ v, r !! "lo_code" = Some v ∧ r' = <["lo_code" := display_of v]> r.
Proof.
  unfold refactor_lo_code, display_of. split.
  - intros H. inv_ok. rename x into v. exists v. split; [assumption|].
    destruct (isna v); simpl in H; inv_ok; subst; [|reflexivity].
    symmetry. by apply insert_id.
  - intros (v & Hv & ->). apply getitem_Ok in Hv. rewrite Hv. simpl.
    destruct (isna v); simpl; [|reflexivity].
    f_equal. symmetry. apply insert_id. by apply getitem_Ok.
Qed.

Lemma set_barcode_image_Ok (r r' : row) :
  set_barcode_image r = Ok r' ↔
  ∃ b, r !! "scanned_barcode_value" = Some b ∧
    r' = <["scannable_qr" :=
            CStr ("http://qrcoder.ru/code/?" +:+ py_str b +:+ "&4&0")]> r.
Proof.
  unfold set_barcode_image. split.
  - intros H. inv_ok. eauto.
  - intros (b & Hb & ->). apply getitem_Ok in Hb. by rewrite Hb.
Qed.

Lemma normalize_coordinates_Ok (r r' : row) :
  normalize_coordinates r = Ok r' ↔
  ∃ x y fx fy, r !! "lat" = Some x ∧ r !! "lon" = Some y ∧
    py_float x = Ok fx ∧ py_float y = Ok fy ∧
    r' = <["lon" := CFloat fy]> (<["lat" := CFloat fx]> r).
Proof.
  unfold normalize_coordinates. split.
  - intros H. inv_ok.
    skip_inserts. subst. eauto 10.
  - intros (x & y & fx & fy & Hx & Hy & Hfx & Hfy & ->).
    apply getitem_Ok in Hx. rewrite Hx. simpl. rewrite Hfx. simpl.
    unfold getitem. rewrite lookup_insert_ne by done. rewrite Hy. simpl.
    by rewrite Hfy.
Qed.
End row_function_facts.

(** ** Frames: masks, columns and row-wise application *)

Lemma select_rows_mask (p : row → bool) (rs : list row) :
  select_rows (p <$> rs) rs = List.filter p rs.
Proof.
  induction rs as [|r rs IH]; [reflexivity|].
  rewrite fmap_cons. cbn [select_rows List.filter].
  destruct (p r); by rewrite IH.
Qed.

Lemma select_rows_column (p : cell → bool) (k : string) (rs : list row) :
  select_rows (p <$> ((λ r : row, default NaN (r !! k)) <$> rs)) rs
  = List.filter (λ r, p (default NaN (r !! k))) rs.
Proof. rewrite <- list_fmap_compose. apply select_rows_mask. Qed.

Lemma getcolumn_Ok (fr : frame) (k : string) (cs : list cell) :
  getcolumn fr k = Ok cs ↔
  k ∈ columns fr ∧ cs = (λ r : row, default NaN (r !! k)) <$> rows fr.
Proof.
  unfold getcolumn. case_bool_decide; split.
  - intros [= <-]. auto.
  - intros [_ ->]. reflexivity.
  - discriminate.
  - intros [? _]. contradiction.
Qed.

Lemma map_rows_Ok (f : row → result row) (rs rs' : list row) :
  map_rows f rs = Ok rs' ↔ Forall2 (λ r r', f r = Ok r') rs rs'.
Proof.
  revert rs'. induction rs as [|r rs IH]; intros rs'; simpl.
  - split.
    + intros [= <-]. constructor.
    + intros H. inversion H. reflexivity.
  - split.
    + intros H. inv_ok. subst. constructor; [assumption|]. by apply IH.
    + intros H. inversion H as [|? r' ? rs'' Hr Hrs]; subst.
      rewrite Hr. simpl. apply IH in Hrs. rewrite Hrs. reflexivity.
Qed.

Lemma apply_rows_Ok (f : row → result row) (fr fr' : frame) :
  apply_rows f fr = Ok fr' →
  Forall2 (λ r r', f r = Ok r') (rows fr) (rows fr')
  ∧ (rows fr = [] → fr' = fr)
  ∧ (∀ r', head (rows fr') = Some r' → columns fr' = row_index r').
Proof.
  unfold apply_rows. destruct (rows fr) as [|r rs] eqn:Hrows.
  - intros [= <-]. rewrite Hrows.
    split; [constructor | split; [auto | discriminate]].
  - intros H. inv_ok. subst fr'. simpl.
    match goal with Hm : map_rows _ _ = Ok _ |- _ => apply map_rows_Ok in Hm end.
    split; [assumption | split; [discriminate|]].
    intros r' Hr'. rewrite Hr'. reflexivity.
Qed.

Lemma elem_of_row_index (r : row) (k : string) :
  k ∈ row_index r ↔ is_Some (r !! k).
Proof.
  unfold row_index. rewrite elem_of_elements. apply elem_of_dom.
Qed.

Lemma narrow_Ok (fr : frame) (k : string) (values : list cell) :
  k ∈ columns fr →
  narrow fr k values
  = Ok (DataFrame (columns fr)
          (List.filter
             (λ r, bool_decide (values = []) || isin values (default NaN (r !! k)))
             (rows fr))).
Proof.
  intros Hk. destruct values as [|v values]; simpl.
  - destruct fr as [cols rs]. simpl. f_equal. f_equal.
    induction rs as [|r rs IH]; simpl; [reflexivity|]. by rewrite <- IH.
  - unfold where_isin, getcolumn. rewrite bool_decide_eq_true_2 by assumption.
    simpl. unfold boolean_index. rewrite select_rows_column. reflexivity.
Qed.

Lemma where_eq_Ok (fr : frame) (k : string) (v : cell) :
  k ∈ columns fr →
  where_eq fr k v
  = Ok (DataFrame (columns fr)
          (List.filter (λ r, bool_decide (default NaN (r !! k) = v)) (rows fr))).
Proof.
  intros Hk. unfold where_eq, getcolumn.
  rewrite bool_decide_eq_true_2 by assumption. simpl.
  unfold boolean_index. rewrite select_rows_column. reflexivity.
Qed.

(** ** Text search *)

Lemma prefix_app (p s : string) :
  String.prefix p s = true ↔ ∃ t, s = p +:+ t.
Proof.
  revert s. induction p as [|a p IH]; intros s; simpl.
  - split; [intros _; by exists s | intros _; by destruct s].
  - destruct s as [|b s]; simpl.
    + split; [discriminate|]. intros [t Ht]. discriminate.
    + destruct (Ascii.ascii_dec a b) as [->|Hab].
      * rewrite IH. split.
        -- intros [t ->]. by exists t.
        -- intros [t [= ->]]. by exists t.
      * split; [discriminate|]. intros [t [= Hb _]]. congruence.
Qed.

Lemma contains_substring (pat s : string) :
  contains pat s = true ↔ ∃ before after, s = before +:+ pat +:+ after.
Proof.
  induction s as [|a s IH]; cbn [contains].
  - rewrite orb_false_r, prefix_app. split.
    + intros [t Ht]. exists "", t. exact Ht.
    + intros (b & t & Hs). destruct b; [|discriminate]. by exists t.
  - rewrite orb_true_iff, prefix_app, IH. split.
    + intros [[t Ht]|(b & t & ->)].
      * exists "", t. exact Ht.
      * exists (String a b), t. reflexivity.
    + intros (b & t & Hs). destruct b as [|c b]; simpl in Hs.
      * left. by exists t.
      * right. injection Hs as -> ->. by exists b, t.
Qed.

(** ** The sources as frames *)

Lemma invert_orders (orders : list order) (keep : list bool) :
  invert (str_contains "_RETRY_" <$>
            ((λ r : row, default NaN (r !! "external_id")) <$> (order_row <$> orders)))
  = Ok keep ↔
  Forall (λ o, is_Some (external_id o)) orders
  ∧ keep = (λ o, negb (retried o)) <$> orders.
Proof.
  revert keep. induction orders as [|o orders IH]; intros keep.
  - simpl. split.
    + intros [= <-]. split; [constructor|reflexivity].
    + intros [_ ->]. reflexivity.
  - rewrite !fmap_cons.
    change (default NaN (order_row o !! "external_id"))
      with (of_nullable (external_id o)).
    assert (Hret : ∀ s, external_id o = Some s → retried o = contains "_RETRY_" s).
    { intros s Hs. unfold retried. by rewrite Hs. }
    destruct (external_id o) as [s|] eqn:Hid; simpl.
    + rewrite (Hret s eq_refl), bind_Ok. split.
      * intros (bs & Hbs & [= <-]). apply IH in Hbs as [Hall ->].
        split; [|reflexivity]. constructor; [by rewrite Hid|assumption].
      * intros [Hall ->]. inversion Hall; subst.
        eexists. split; [apply IH; split; [assumption|reflexivity]|reflexivity].
    + split; [discriminate|]. intros [Hall _]. inversion Hall as [|? ? Hsome]; subst.
      rewrite Hid in Hsome. by destruct Hsome.
Qed.

Lemma select_rows_orders (keep : order → bool) (orders : list order) :
  select_rows (keep <$> orders) (order_row <$> orders)
  = order_row <$> List.filter keep orders.
Proof.
  induction orders as [|o orders IH]; [reflexivity|].
  rewrite !fmap_cons. cbn [select_rows List.filter].
  destruct (keep o); rewrite IH; reflexivity.
Qed.

Lemma drop_retries_orders (orders : list order) (fr : frame) :
  drop_retries (orders_frame orders) = Ok fr ↔
  Forall (λ o, is_Some (external_id o)) orders
  ∧ fr = orders_frame (List.filter (λ o, negb (retried o)) orders).
Proof.
  unfold drop_retries. rewrite bind_Ok. split.
  - intros (ids & Hids & H). apply getcolumn_Ok in Hids as [_ ->].
    apply bind_Ok in H as (keep & Hkeep & [= <-]).
    apply invert_orders in Hkeep as [Hall ->]. split; [assumption|].
    unfold boolean_index, orders_frame. simpl. by rewrite select_rows_orders.
  - intros [Hall ->]. eexists. split.
    + apply getcolumn_Ok. split; [|reflexivity]. column_in.
    + apply bind_Ok. eexists. split.
      * apply invert_orders. split; [assumption|reflexivity].
      * unfold boolean_index, orders_frame. simpl. by rewrite select_rows_orders.
Qed.

(** ** The join *)

Lemma merge_left_scans (scans : list scan) (right m : frame) :
  merge_left (scans_frame scans) right "scanned_barcode_value" "barcode" = Ok m ↔
  "barcode" ∈ columns right
  ∧ m = DataFrame (scan_columns ++ columns right) (scans ≫= records_of right).
Proof.
  assert (Hrows : (l ← scan_row <$> scans;
                   join_row right "barcode"
                     (default NaN (l !! "scanned_barcode_value")) l)
                  = scans ≫= records_of right).
  { induction scans as [|s scans IH]; [reflexivity|].
    rewrite fmap_cons, !bind_cons, IH. reflexivity. }
  unfold merge_left. rewrite bind_Ok. split.
  - intros (? & _ & H). apply bind_Ok in H as (? & Hb & [= <-]).
    apply getcolumn_Ok in Hb as [Hb _]. split; [assumption|].
    simpl. by rewrite Hrows.
  - intros [Hb ->]. eexists. split.
    + apply getcolumn_Ok. split; [|reflexivity]. column_in.
    + apply bind_Ok. eexists. split.
      * apply getcolumn_Ok. split; [assumption|reflexivity].
      * simpl. by rewrite Hrows.
Qed.

Lemma records_of_length (right : frame) (s : scan) :
  length (records_of right s) = Nat.max 1 (length (partners right (scan_key s))).
Proof.
  unfold records_of, join_row. fold (partners right (scan_key s)).
  destruct (partners right (scan_key s)) as [|r rs]; [reflexivity|].
  rewrite length_fmap. simpl. reflexivity.
Qed.

Lemma records_of_elem (right : frame) (s : scan) (r : row) :
  r ∈ records_of right s ↔
  (partners right (scan_key s) = [] ∧ r = scan_row s ∪ missing_row (columns right))
  ∨ (∃ o, o ∈ partners right (scan_key s) ∧ r = scan_row s ∪ o).
Proof.
  unfold records_of, join_row. fold (partners right (scan_key s)).
  destruct (partners right (scan_key s)) as [|o os].
  - rewrite list_elem_of_singleton. split.
    + intros ->. left. auto.
    + intros [[_ ->]|(o & Ho & _)]; [reflexivity|]. by apply not_elem_of_nil in Ho.
  - rewrite list_elem_of_fmap. split.
    + intros (o' & -> & Ho'). right. eauto.
    + intros [[Hnil _]|(o' & Ho' & ->)]; [discriminate|]. eauto.
Qed.

Lemma records_of_nonempty (right : frame) (s : scan) :
  ∃ r, r ∈ records_of right s.
Proof.
  pose proof (records_of_length right s) as Hlen.
  destruct (records_of right s) as [|r rs]; [simpl in Hlen; lia|].
  exists r. by left.
Qed.

Lemma scan_columns_kept (s : scan) (o : row) (k : string) :
  k ∈ scan_columns → (scan_row s ∪ o) !! k = scan_row s !! k.
Proof.
  intros Hk. unfold scan_columns in Hk.
  repeat (apply elem_of_cons in Hk as [->|Hk];
          [by erewrite lookup_union_Some_l by reflexivity|]).
  by apply not_elem_of_nil in Hk.
Qed.

Lemma order_columns_joined (s : scan) (o : row) (k : string) :
  k ∈ proxy_columns → (scan_row s ∪ o) !! k = o !! k.
Proof.
  intros Hk. unfold proxy_columns in Hk.
  repeat (apply elem_of_cons in Hk as [->|Hk];
          [by apply lookup_union_r|]).
  by apply not_elem_of_nil in Hk.
Qed.

Lemma missing_row_proxy (k : string) :
  k ∈ proxy_columns → missing_row proxy_columns !! k = Some NaN.
Proof.
  intros Hk. unfold proxy_columns in Hk.
  repeat (apply elem_of_cons in Hk as [->|Hk]; [reflexivity|]).
  by apply not_elem_of_nil in Hk.
Qed.

(** ** The five passes over the joined frame *)

Lemma Forall2_compose {A} (P Q : A → A → Prop) (l1 l2 l3 : list A) :
  Forall2 P l1 l2 → Forall2 Q l2 l3 →
  Forall2 (λ a c, ∃ b, P a b ∧ Q b c) l1 l3.
Proof.
  intros H12. revert l3. induction H12 as [|a b l1 l2 Hab _ IH]; intros l3 H23.
  - inversion H23. constructor.
  - inversion H23; subst. constructor; eauto.
Qed.

Section passes.
Context `{B : Builtins}.

Lemma process_row_Ok (r r' : row) :
  process_row r = Ok r' →
  ∃ code x y fx fy t v b,
    r !! "scanned_barcode_value" = Some code ∧
    r !! "lat" = Some x ∧ r !! "lon" = Some y ∧
    py_float x = Ok fx ∧ py_float y = Ok fy ∧
    r !! "tariff" = Some t ∧ r !! "lo_code" = Some v ∧
    r !! "barcode" = Some b ∧
    ∃ status,
      (isna b = true ∧ status = "Missing"
       ∨ isna b = false ∧ ∃ c, r !! "claim_id" = Some c ∧
           status = if isna c then "Picked" else "Received") ∧
      r' = <["pick_status" := CStr status]>
             (<["lo_code" := display_of v]>
                (<["tariff" := CStr (label_of t)]>
                   (<["lon" := CFloat fy]>
                      (<["lat" := CFloat fx]>
                         (<["scannable_qr" := qr_of code]> r))))).
Proof.
  unfold process_row. intros H.
  apply bind_Ok in H as (r1 & H1 & H). apply set_barcode_image_Ok in H1 as (code & Hcode & ->).
  apply bind_Ok in H as (r2 & H2 & H).
  apply normalize_coordinates_Ok in H2 as (x & y & fx & fy & Hx & Hy & Hfx & Hfy & ->).
  apply bind_Ok in H as (r3 & H3 & H). apply normalize_tariffs_Ok in H3 as (t & Ht & ->).
  apply bind_Ok in H as (r4 & H4 & H). apply refactor_lo_code_Ok in H4 as (v & Hv & ->).
  apply set_status_Ok in H as (b & Hb & Hst).
  skip_inserts.
  exists code, x, y, fx, fy, t, v, b. repeat (split; [assumption|]).
  destruct Hst as [[Hna ->]|(Hna & c & Hc & ->)].
  - exists "Missing". split; [auto|reflexivity].
  - skip_inserts. eexists. split; [|reflexivity].
    right. eauto.
Qed.

Lemma passes_Ok (fr0 fr : frame) :
  (fr1 ← apply_rows set_barcode_image fr0;
   fr2 ← apply_rows normalize_coordinates fr1;
   fr3 ← apply_rows normalize_tariffs fr2;
   fr4 ← apply_rows refactor_lo_code fr3;
   apply_rows set_status fr4) = Ok fr →
  Forall2 (λ r r', process_row r = Ok r') (rows fr0) (rows fr)
  ∧ (rows fr0 = [] → fr = fr0).
Proof.
  intros H.
  apply bind_Ok in H as (fr1 & H1 & H). apply apply_rows_Ok in H1 as (H1 & E1 & _).
  apply bind_Ok in H as (fr2 & H2 & H). apply apply_rows_Ok in H2 as (H2 & E2 & _).
  apply bind_Ok in H as (fr3 & H3 & H). apply apply_rows_Ok in H3 as (H3 & E3 & _).
  apply bind_Ok in H as (fr4 & H4 & H). apply apply_rows_Ok in H as (H5 & E5 & _).
  apply apply_rows_Ok in H4 as (H4 & E4 & _).
  split.
  - pose proof (Forall2_compose _ _ _ _ _ H1
                  (Forall2_compose _ _ _ _ _ H2
                     (Forall2_compose _ _ _ _ _ H3
                        (Forall2_compose _ _ _ _ _ H4 H5)))) as Hall.
    eapply Forall2_impl; [exact Hall|]. simpl.
    intros r r' (r1 & Hr1 & r2 & Hr2 & r3 & Hr3 & r4 & Hr4 & Hr5).
    unfold process_row. rewrite Hr1. simpl. rewrite Hr2. simpl.
    rewrite Hr3. simpl. rewrite Hr4. simpl. exact Hr5.
  - intros E0.
    specialize (E1 E0); subst fr1. specialize (E2 E0); subst fr2.
    specialize (E3 E0); subst fr3. specialize (E4 E0); subst fr4.
    exact (E5 E0).
Qed.
End passes.

(** ** The reconciled frame *)

Lemma partners_orders (orders : list order) (key : cell) (r : row) :
  r ∈ partners (orders_frame orders) key ↔
  ∃ o, o ∈ orders ∧ r = order_row o
       ∧ key_match key (of_nullable (barcode o)) = true.
Proof.
  unfold partners. rewrite list_elem_of_In, filter_In, <- list_elem_of_In.
  simpl. rewrite list_elem_of_fmap. split.
  - intros [(o & -> & Ho) Hkey]. exists o. auto.
  - intros (o & Ho & -> & Hkey). split; [eauto|exact Hkey].
Qed.

Lemma joined_row (scans : list scan) (orders : list order) (r : row) :
  r ∈ rows (joined scans orders) →
  ∃ s, s ∈ scans ∧
    (r = scan_row s ∪ missing_row proxy_columns
     ∨ ∃ o, o ∈ kept orders ∧ r = scan_row s ∪ order_row o
            ∧ key_match (scan_key s) (of_nullable (barcode o)) = true).
Proof.
  simpl. rewrite list_elem_of_bind. intros (s & Hr & Hs). exists s.
  split; [assumption|]. apply records_of_elem in Hr as [[_ ->]|(o & Ho & ->)].
  - left. reflexivity.
  - right. apply partners_orders in Ho as (o' & Ho' & -> & Hkey). eauto.
Qed.

Lemma joined_order_column (scans : list scan) (orders : list order) (r : row)
    (k : string) :
  r ∈ rows (joined scans orders) → k ∈ proxy_columns → is_Some (r !! k).
Proof.
  intros Hr Hk. apply joined_row in Hr as (s & _ & [->|(o & _ & -> & _)]);
    rewrite order_columns_joined by assumption.
  - rewrite missing_row_proxy by assumption. eauto.
  - unfold proxy_columns in Hk.
    repeat (apply elem_of_cons in Hk as [->|Hk]; [by eexists|]).
    by apply not_elem_of_nil in Hk.
Qed.

Section reconciled.
Context `{B : Builtins}.

Lemma merged_frame_Ok (scans : list scan) (orders : list order) (fr : frame) :
  merged_frame scans orders = Ok fr →
  Forall (λ o, is_Some (external_id o)) orders
  ∧ drop_retries (orders_frame orders) = Ok (orders_frame (kept orders))
  ∧ merge_left (scans_frame scans) (orders_frame (kept orders))
      "scanned_barcode_value" "barcode" = Ok (joined scans orders)
  ∧ Forall2 (λ r r', process_row r = Ok r')
      (rows (joined scans orders)) (rows fr)
  ∧ (scans = [] → fr = joined scans orders).
Proof.
  unfold merged_frame. intros H.
  apply bind_Ok in H as (proxy & Hproxy & H).
  pose proof Hproxy as Hdrop.
  apply drop_retries_orders in Hproxy as [Hids ->]. fold (kept orders) in *.
  apply bind_Ok in H as (m & Hm & H).
  pose proof Hm as Hmerge.
  apply merge_left_scans in Hm as [_ ->]. fold (joined scans orders) in *.
  apply passes_Ok in H as [Hrows Hempty].
  repeat (split; [assumption|]).
  intros ->. by apply Hempty.
Qed.

Lemma reconciled_row (scans : list scan) (orders : list order) (fr : frame)
    (r : row) :
  merged_frame scans orders = Ok fr → r ∈ rows fr →
  ∃ r0, r0 ∈ rows (joined scans orders) ∧ process_row r0 = Ok r.
Proof.
  intros H Hr. apply merged_frame_Ok in H as (_ & _ & _ & Hrows & _).
  apply list_elem_of_lookup in Hr as [i Hi].
  destruct (Forall2_lookup_r _ _ _ _ _ Hrows Hi) as (r0 & Hr0 & Hp).
  exists r0. split; [|assumption]. apply list_elem_of_lookup. eauto.
Qed.
End reconciled.


(** * The claims *)

(** C1: every reconciled record carries a pick status that is "Missing"
    when its order-side barcode is missing, otherwise "Picked" when its
    claim_id is missing, otherwise "Received"; the status is a function of
    these two facts alone. *)
Theorem pick_status_derivation `{B : Builtins} (scans : list scan)
    (orders : list order) (fr : frame) (r : row) :
  merged_frame scans orders = Ok fr → r ∈ rows fr →
  ∃ b c status,
    r !! "barcode" = Some b ∧ r !! "claim_id" = Some c ∧
    r !! "pick_status" = Some (CStr status) ∧
    status = (if isna b then "Missing"
              else if isna c then "Picked" else "Received") ∧
    (status = "Missing" ∨ status = "Picked" ∨ status = "Received").
Proof.
  intros H Hr. destruct (reconciled_row _ _ _ _ H Hr) as (r0 & Hr0 & Hp).
  destruct (joined_order_column scans orders r0 "claim_id" Hr0) as [c Hc].
  { column_in. }
  apply process_row_Ok in Hp
    as (code & x & y & fx & fy & t & v & b & _ & _ & _ & _ & _ & _ & _ & Hb
        & status & Hst & ->).
  exists b, c, status. rewrite lookup_insert_eq.
  rewrite !lookup_insert_ne by done. repeat (split; [done|]).
  destruct Hst as [[Hna ->]|(Hna & c' & Hc' & ->)]; rewrite Hna.
  - auto.
  - replace c' with c by congruence. destruct (isna c); auto.
Qed.

Lemma pick_status_derivation_witness :
  ∃ b c status,
    Demo.first_row Demo.merged !! "barcode" = Some b ∧
    Demo.first_row Demo.merged !! "claim_id" = Some c ∧
    Demo.first_row Demo.merged !! "pick_status" = Some (CStr status) ∧
    status = (if isna b then "Missing"
              else if isna c then "Picked" else "Received") ∧
    (status = "Missing" ∨ status = "Picked" ∨ status = "Received").
Proof.
  apply (pick_status_derivation (B := Sample.builtins)
           Demo.scans Demo.orders Demo.merged).
  - vm_compute. reflexivity.
  - vm_compute. left.
Defined.

(** C2: the tariff of every reconciled record is the label of the raw
    tariff of the joined row: "Unknown" for a missing value, "SDD" for a
    value equal to zero, "NDD" for every other value. *)
Theorem tariff_label_derivation `{B : Builtins} (scans : list scan)
    (orders : list order) (fr : frame) :
  merged_frame scans orders = Ok fr →
  ∃ proxy m,
    drop_retries (orders_frame orders) = Ok proxy ∧
    merge_left (scans_frame scans) proxy "scanned_barcode_value" "barcode"
      = Ok m ∧
    Forall2 (λ r0 r, ∃ t label,
               r0 !! "tariff" = Some t ∧
               r !! "tariff" = Some (CStr label) ∧
               label = (if isna t then "Unknown"
                        else if eq_zero t then "SDD" else "NDD") ∧
               (label = "Unknown" ∨ label = "SDD" ∨ label = "NDD"))
      (rows m) (rows fr).
Proof.
  intros H. apply merged_frame_Ok in H as (_ & Hdrop & Hmerge & Hrows & _).
  exists (orders_frame (kept orders)), (joined scans orders).
  repeat (split; [assumption|]).
  eapply Forall2_impl; [exact Hrows|]. intros r0 r Hp.
  apply process_row_Ok in Hp
    as (code & x & y & fx & fy & t & v & b & _ & _ & _ & _ & _ & Ht & _ & _
        & status & _ & ->).
  exists t, (label_of t). rewrite !lookup_insert_ne by done.
  rewrite lookup_insert_eq. repeat (split; [done|]).
  unfold label_of. destruct (isna t); [auto|]. destruct (eq_zero t); auto.
Qed.

Lemma tariff_label_derivation_witness :
  Forall2 (λ r0 r, ∃ t label,
             r0 !! "tariff" = Some t ∧
             r !! "tariff" = Some (CStr label) ∧
             label = (if isna t then "Unknown"
                      else if eq_zero t then "SDD" else "NDD") ∧
             (label = "Unknown" ∨ label = "SDD" ∨ label = "NDD"))
    (rows Demo.joined_frame) (rows Demo.merged).
Proof.
  destruct (tariff_label_derivation (B := Sample.builtins)
              Demo.scans Demo.orders Demo.merged)
    as (proxy & m & Hproxy & Hm & Hrows).
  - vm_compute. reflexivity.
  - assert (proxy = Demo.proxy_frame) as ->.
    { unfold Demo.proxy_frame. by rewrite Hproxy. }
    assert (m = Demo.joined_frame) as ->.
    { unfold Demo.joined_frame. by rewrite Hm. }
    exact Hrows.
Defined.



Lemma partners_orders_frame (os : list order) (key : cell) :
  partners (orders_frame os) key
  = order_row <$> List.filter (λ o, key_match key (of_nullable (barcode o))) os.
Proof.
  unfold partners. simpl. induction os as [|o os IH]; [reflexivity|].
  rewrite fmap_cons. cbn [List.filter].
  change (default NaN (order_row o !! "barcode")) with (of_nullable (barcode o)).
  destruct (key_match key (of_nullable (barcode o))); rewrite IH; reflexivity.
Qed.

Lemma records_of_orders (os : list order) (s : scan) :
  records_of (orders_frame os) s
  = match List.filter (λ o, key_match (scan_key s) (of_nullable (barcode o))) os with
    | [] => [scan_row s ∪ missing_row proxy_columns]
    | matching => (λ o, scan_row s ∪ order_row o) <$> matching
    end.
Proof.
  unfold records_of, join_row.
  change (List.filter _ (rows (orders_frame os)))
    with (partners (orders_frame os) (scan_key s)).
  rewrite partners_orders_frame.
  destruct (List.filter _ os) as [|o os']; [reflexivity|].
  rewrite !fmap_cons. cbn [List.filter]. f_equal.
  by rewrite <- list_fmap_compose.
Qed.

Lemma bind_concat {A C} (f : A → list C) (l : list A) :
  l ≫= f = concat (f <$> l).
Proof.
  induction l as [|a l IH]; [reflexivity|].
  rewrite bind_cons, fmap_cons, IH. reflexivity.
Qed.

Lemma records_cover (right : frame) (scans : list scan) :
  (length scans ≤ length (scans ≫= records_of right))%nat.
Proof.
  induction scans as [|s scans IH]; [reflexivity|].
  rewrite bind_cons, length_app, records_of_length. simpl. lia.
Qed.

(** C3: the left join of the scans with the orders has a group of records
    for every scan, in the order of the scans: as many records as orders
    carry the scanned code, one record with every order column missing
    when no order does; so it has at least as many records as scans, and
    every record shows the columns of its scan unchanged. *)
Theorem left_join_keeps_scans (scans : list scan) (os : list order) :
  ∃ m groups,
    merge_left (scans_frame scans) (orders_frame os)
      "scanned_barcode_value" "barcode" = Ok m ∧
    rows m = concat groups ∧
    (length scans ≤ len m)%nat ∧
    Forall2 (λ s group,
      let matching :=
        List.filter (λ o, key_match (of_nullable (scanned_barcode_value s))
                            (of_nullable (barcode o))) os in
      length group = Nat.max 1 (length matching) ∧
      (matching = [] →
         ∃ r, group = [r] ∧ ∀ k, k ∈ proxy_columns → r !! k = Some NaN) ∧
      (matching ≠ [] →
         Forall2 (λ o r, ∀ k, k ∈ proxy_columns → r !! k = order_row o !! k)
           matching group) ∧
      (∀ r, r ∈ group → ∀ k, k ∈ scan_columns → r !! k = scan_row s !! k))
      scans groups.
Proof.
  exists (DataFrame (scan_columns ++ proxy_columns)
            (scans ≫= records_of (orders_frame os))),
    (records_of (orders_frame os) <$> scans).
  split; [apply merge_left_scans; split; [column_in|reflexivity]|].
  split; [apply bind_concat|]. split; [apply records_cover|].
  apply Forall2_fmap_r, Forall_Forall2_diag, Forall_forall. intros s _.
  unfold compose. cbv beta zeta. rewrite records_of_orders. unfold scan_key.
  destruct (List.filter _ os) as [|o os'].
  - split; [reflexivity|]. split; [|split].
    + intros _. eexists. split; [reflexivity|]. intros k Hk.
      rewrite order_columns_joined by assumption. by apply missing_row_proxy.
    + done.
    + intros r Hr k Hk. apply list_elem_of_singleton in Hr as ->.
      by apply scan_columns_kept.
  - split; [by rewrite length_fmap|]. split; [done|]. split.
    + intros _. apply Forall2_fmap_r, Forall_Forall2_diag, Forall_forall.
      intros o' _ k Hk. by apply order_columns_joined.
    + intros r Hr k Hk. apply list_elem_of_fmap in Hr as (o' & -> & _).
      by apply scan_columns_kept.
Qed.

(** ** The multi-select boxes *)

Lemma admitsb_admits (values : list cell) (c : cell) :
  admitsb values c = true ↔ admits values c.
Proof.
  unfold admitsb, admits, isin.
  rewrite orb_true_iff, !bool_decide_eq_true. reflexivity.
Qed.

Lemma filter_filter {A} (p q : A → bool) (l : list A) :
  List.filter q (List.filter p l) = List.filter (λ a, p a && q a) l.
Proof.
  induction l as [|a l IH]; [reflexivity|]. simpl.
  destruct (p a); simpl; [destruct (q a)|]; by rewrite IH.
Qed.

Lemma narrow_admits (fr : frame) (k : string) (values : list cell) :
  k ∈ columns fr →
  narrow fr k values
  = Ok (DataFrame (columns fr)
          (List.filter (λ r, admitsb values (cell_at r k)) (rows fr))).
Proof. apply narrow_Ok. Qed.

Lemma apply_selection_Ok (fr : frame) (sel : selection) :
  "courier_uuid" ∈ columns fr → "corp_client_id" ∈ columns fr →
  "tariff" ∈ columns fr → "pick_status" ∈ columns fr →
  apply_selection fr sel
  = Ok (DataFrame (columns fr) (List.filter (passes sel) (rows fr))).
Proof.
  intros H1 H2 H3 H4. unfold apply_selection.
  rewrite narrow_admits by assumption. simpl.
  rewrite narrow_admits by assumption. simpl.
  rewrite narrow_admits by assumption. simpl.
  rewrite narrow_admits by assumption. simpl.
  rewrite !filter_filter. do 2 f_equal. apply List.filter_ext.
  intros r. unfold passes. by rewrite !andb_assoc.
Qed.

(** ** The page *)

Lemma visible_part_lookup (r : row) (k : string) :
  k ∈ visible_columns → visible_part r !! k = r !! k.
Proof.
  intros Hk. unfold visible_part.
  destruct (r !! k) as [c|] eqn:Hr.
  - by apply map_lookup_filter_Some_2.
  - apply map_lookup_filter_None. left. exact Hr.
Qed.

Lemma project_Ok (fr fr' : frame) (cols : list string) :
  project fr cols = Ok fr' →
  fr' = DataFrame cols
          ((λ r : row, filter (λ kv, kv.1 ∈ cols) r) <$> rows fr).
Proof.
  unfold project. destruct (List.find _ cols); [discriminate|].
  intros [= <-]. reflexivity.
Qed.

Section page.
Context `{B : Builtins}.

Lemma script_Ok (scans : list scan) (orders : list order) (sel : selection)
    (p : page) :
  script scans orders sel = Ok p →
  ∃ fr, merged_frame scans orders = Ok fr ∧
    scan_events p = len fr ∧
    scan_errors p = length (List.filter is_missing (rows fr)) ∧
    visible_frame p
    = DataFrame visible_columns
        (visible_part <$> List.filter (passes sel) (rows fr)).
Proof.
  unfold script. intros H.
  apply bind_Ok in H as (fr & Hfr & H). exists fr. split; [assumption|].
  apply bind_Ok in H as (? & H1 & H). apply getcolumn_Ok in H1 as [H1 _].
  apply bind_Ok in H as (? & H2 & H). apply getcolumn_Ok in H2 as [H2 _].
  apply bind_Ok in H as (? & H3 & H). apply getcolumn_Ok in H3 as [H3 _].
  apply bind_Ok in H as (? & H4 & H). apply getcolumn_Ok in H4 as [H4 _].
  rewrite where_eq_Ok in H by assumption. simpl in H.
  rewrite apply_selection_Ok in H by assumption. simpl in H.
  apply bind_Ok in H as (v & Hv & [= <-]). apply project_Ok in Hv as ->.
  simpl. repeat split; reflexivity.
Qed.
End page.

(** C6: the four boxes applied one after the other keep exactly the rows
    that every non-empty set admits, an empty set admitting every row; two
    sets applied one after the other keep what their conjunction keeps, and
    so do two whole selections. *)
Theorem filters_compose (fr : frame) (sel : selection) :
  "courier_uuid" ∈ columns fr → "corp_client_id" ∈ columns fr →
  "tariff" ∈ columns fr → "pick_status" ∈ columns fr →
  ∃ out, apply_selection fr sel = Ok out ∧
    rows out = List.filter (passes sel) (rows fr) ∧
    (∀ r, r ∈ rows out ↔
       r ∈ rows fr ∧
       admits (couriers sel) (cell_at r "courier_uuid") ∧
       admits (clients sel) (cell_at r "corp_client_id") ∧
       admits (tariffs sel) (cell_at r "tariff") ∧
       admits (filtered_statuses sel) (cell_at r "pick_status")) ∧
    (∀ k1 k2 v1 v2, k1 ∈ columns fr → k2 ∈ columns fr →
       (fr1 ← narrow fr k1 v1; narrow fr1 k2 v2)
       = Ok (DataFrame (columns fr)
               (List.filter (λ r, admitsb v1 (cell_at r k1)
                                  && admitsb v2 (cell_at r k2)) (rows fr)))) ∧
    (∀ sel', (fr1 ← apply_selection fr sel; apply_selection fr1 sel')
       = Ok (DataFrame (columns fr)
               (List.filter (λ r, passes sel r && passes sel' r) (rows fr)))).
Proof.
  intros H1 H2 H3 H4. eexists. split; [by apply apply_selection_Ok|].
  simpl. split; [reflexivity|]. split; [|split].
  - intros r. rewrite list_elem_of_In, filter_In, <- list_elem_of_In.
    unfold passes. rewrite !andb_true_iff, !admitsb_admits. tauto.
  - intros k1 k2 v1 v2 Hk1 Hk2. rewrite narrow_admits by assumption. simpl.
    rewrite narrow_admits by assumption. simpl. by rewrite filter_filter.
  - intros sel'. rewrite apply_selection_Ok by assumption. simpl.
    rewrite apply_selection_Ok by assumption. simpl. by rewrite filter_filter.
Qed.

Lemma filters_compose_witness :
  ∃ out,
    apply_selection Demo.merged
      (Selection [CStr "courier-1"] [] [CStr "SDD"; CStr "NDD"] []) = Ok out ∧
    rows out
    = List.filter
        (passes (Selection [CStr "courier-1"] [] [CStr "SDD"; CStr "NDD"] []))
        (rows Demo.merged).
Proof.
  destruct (filters_compose Demo.merged
              (Selection [CStr "courier-1"] [] [CStr "SDD"; CStr "NDD"] []))
    as (out & Hout & Hrows & _); [column_in..|].
  exists out. split; assumption.
Defined.

(** C7: the orders whose external_id contains "_RETRY_" are dropped from
    the order frame before the join, and no reconciled record, on the page
    or before the boxes, shows an external_id that contains it. *)
Theorem retried_orders_excluded `{B : Builtins} (scans : list scan)
    (orders : list order) (fr : frame) :
  merged_frame scans orders = Ok fr →
  let marked (s : string) := ∃ before after, s = before +:+ "_RETRY_" +:+ after in
  ∃ proxy m,
    drop_retries (orders_frame orders) = Ok proxy ∧
    (∀ r, r ∈ rows proxy ↔
       ∃ o, o ∈ orders ∧ r = order_row o ∧
            ∀ s, external_id o = Some s → ¬ marked s) ∧
    merge_left (scans_frame scans) proxy "scanned_barcode_value" "barcode"
      = Ok m ∧
    (∀ r s, r ∈ rows m → r !! "external_id" = Some (CStr s) → ¬ marked s) ∧
    (∀ r s, r ∈ rows fr → r !! "external_id" = Some (CStr s) → ¬ marked s) ∧
    (∀ sel p r s, script scans orders sel = Ok p →
       r ∈ rows (visible_frame p) →
       r !! "external_id" = Some (CStr s) → ¬ marked s).
Proof.
  intros H marked.
  assert (Hkept : ∀ o, o ∈ kept orders ↔
            o ∈ orders ∧ ∀ s, external_id o = Some s → ¬ marked s).
  { intros o. unfold kept. rewrite list_elem_of_In, filter_In, <- list_elem_of_In.
    unfold retried, marked. split; intros [Ho Hm]; (split; [assumption|]).
    - intros s Hs. rewrite Hs in Hm. rewrite <- contains_substring.
      by destruct (contains "_RETRY_" s).
    - destruct (external_id o) as [s|]; [|reflexivity].
      specialize (Hm s eq_refl). rewrite <- contains_substring in Hm.
      by destruct (contains "_RETRY_" s). }
  assert (Hjoined : ∀ r s, r ∈ rows (joined scans orders) →
            r !! "external_id" = Some (CStr s) → ¬ marked s).
  { intros r s Hr Hs. apply joined_row in Hr as (sc & _ & [->|(o & Ho & -> & _)]).
    - rewrite order_columns_joined, missing_row_proxy in Hs by column_in.
      discriminate.
    - rewrite order_columns_joined in Hs by column_in.
      apply Hkept in Ho as [_ Ho]. apply Ho.
      change (order_row o !! "external_id")
        with (Some (of_nullable (external_id o))) in Hs.
      destruct (external_id o); by inversion Hs. }
  assert (Hfinal : ∀ fr' r s, merged_frame scans orders = Ok fr' → r ∈ rows fr' →
            r !! "external_id" = Some (CStr s) → ¬ marked s).
  { intros fr' r s Hfr' Hr Hs.
    destruct (reconciled_row _ _ _ _ Hfr' Hr) as (r0 & Hr0 & Hp).
    apply (Hjoined r0 s Hr0).
    apply process_row_Ok in Hp
      as (? & ? & ? & ? & ? & ? & ? & ? & _ & _ & _ & _ & _ & _ & _ & _
          & ? & _ & ->).
    by rewrite !lookup_insert_ne in Hs by done. }
  pose proof H as H'.
  apply merged_frame_Ok in H' as (_ & Hdrop & Hmerge & _ & _).
  exists (orders_frame (kept orders)), (joined scans orders).
  split; [assumption|]. split; [|split; [assumption|split; [assumption|split]]].
  - intros r. simpl. rewrite list_elem_of_fmap. split.
    + intros (o & -> & Ho). apply Hkept in Ho as [Ho Hm]. eauto.
    + intros (o & Ho & -> & Hm). exists o. split; [reflexivity|].
      apply Hkept. auto.
  - intros r s. by apply Hfinal.
  - intros sel p r s Hp Hr Hs.
    apply script_Ok in Hp as (fr' & Hfr' & _ & _ & Hv). rewrite Hv in Hr.
    simpl in Hr. apply list_elem_of_fmap in Hr as (r' & -> & Hr').
    rewrite list_elem_of_In, filter_In, <- list_elem_of_In in Hr'.
    destruct Hr' as [Hr' _].
    rewrite visible_part_lookup in Hs by column_in.
    by apply (Hfinal fr' r' s).
Qed.

Lemma retried_orders_excluded_witness :
  Forall (λ r : row, ∀ s, r !! "external_id" = Some (CStr s) →
            ¬ ∃ before after, s = before +:+ "_RETRY_" +:+ after)
    (rows Demo.merged).
Proof.
  destruct (retried_orders_excluded (B := Sample.builtins)
              Demo.scans Demo.orders Demo.merged)
    as (proxy & m & _ & _ & _ & _ & Hfinal & _).
  - vm_compute. reflexivity.
  - apply Forall_forall. intros r Hr s Hs. exact (Hfinal r s Hr Hs).
Defined.



Lemma filter_true_on {A} (p : A → bool) (l : list A) :
  (∀ a, a ∈ l → p a = true) → List.filter p l = l.
Proof.
  induction l as [|a l IH]; intros Hp; [reflexivity|]. simpl.
  rewrite (Hp a) by left. f_equal. apply IH. intros a' Ha'. apply Hp. by right.
Qed.





(** C4, as the script has it: [float] on a latitude or longitude that is
    no number raises, nothing catches it, and the exception leaves the
    whole pass; no reconciled frame and no page come out for any record of
    the batch. *)
Theorem coordinate_failure_aborts `{B : Builtins} (scans : list scan)
    (orders : list order) (s : scan) :
  s ∈ scans →
  is_ok (py_float (of_nullable (lat s))) = false
  ∨ is_ok (py_float (of_nullable (lon s))) = false →
  is_ok (merged_frame scans orders) = false
  ∧ ∀ sel, is_ok (script scans orders sel) = false.
Proof.
  intros Hs Hbad.
  assert (Hfr : ∀ fr, merged_frame scans orders ≠ Ok fr).
  { intros fr Hfr. apply merged_frame_Ok in Hfr as (_ & _ & _ & Hrows & _).
    destruct (records_of_nonempty (orders_frame (kept orders)) s) as [r0 Hr0].
    assert (Hin : r0 ∈ rows (joined scans orders)).
    { simpl. apply list_elem_of_bind. eauto. }
    apply list_elem_of_lookup in Hin as [i Hi].
    destruct (Forall2_lookup_l _ _ _ _ _ Hrows Hi) as (r & _ & Hp).
    apply process_row_Ok in Hp
      as (? & x & y & fx & fy & ? & ? & ? & _ & Hx & Hy & Hfx & Hfy & _).
    assert (Hlat : r0 !! "lat" = Some (of_nullable (lat s))
                   ∧ r0 !! "lon" = Some (of_nullable (lon s))).
    { apply records_of_elem in Hr0 as [[_ ->]|(o & _ & ->)];
        by rewrite !scan_columns_kept by column_in. }
    destruct Hlat as [Hlat Hlon].
    assert (x = of_nullable (lat s)) as -> by congruence.
    assert (y = of_nullable (lon s)) as -> by congruence.
    rewrite Hfx, Hfy in Hbad. by destruct Hbad. }
  split.
  - destruct (merged_frame scans orders) as [fr|e] eqn:E; [|reflexivity].
    by destruct (Hfr fr).
  - intros sel. destruct (script scans orders sel) as [p|e] eqn:E; [|reflexivity].
    apply script_Ok in E as (fr & E & _). by destruct (Hfr fr).
Qed.

Lemma coordinate_failure_aborts_witness :
  is_ok (merged_frame (B := Sample.builtins)
           (Demo.unlocated_scan :: Demo.scans) Demo.orders) = false
  ∧ ∀ sel, is_ok (script (B := Sample.builtins)
                    (Demo.unlocated_scan :: Demo.scans) Demo.orders sel) = false.
Proof.
  apply (coordinate_failure_aborts (B := Sample.builtins)
           (Demo.unlocated_scan :: Demo.scans) Demo.orders Demo.unlocated_scan).
  - left.
  - left. reflexivity.
Defined.

(** C4 as the spec words it fails: one scan with an unreadable latitude, or
    one without a position, among two good scans leaves no page at all,
    while the good scans alone give one. *)
Lemma malformed_coordinate_aborts_batch :
  script (B := Sample.builtins) (Demo.unreadable_scan :: Demo.scans)
    Demo.orders Demo.nothing_picked = Raise ValueError
  ∧ script (B := Sample.builtins) (Demo.unlocated_scan :: Demo.scans)
      Demo.orders Demo.nothing_picked = Raise TypeError
  ∧ is_ok (script (B := Sample.builtins) Demo.scans Demo.orders
             Demo.nothing_picked) = true.
Proof. repeat split; vm_compute; reflexivity. Qed.

(** C5: no window gives no time filter at all; a window with both bounds
    gives an inclusive BETWEEN filter on the scan time; a window with only
    the start gives a >= start filter; and a window that does not unpack
    into (start, end) collapses to (its first element, None), that is to
    the start-only filter on its first element, instead of raising: the
    filter is built for every window. *)
Theorem window_filter :
  query_date_filter [] = ""
  ∧ (∀ a b, query_date_filter [Some a; Some b]
            = "WHERE DATETIME(timestamp, 'America/Santiago') BETWEEN '"
              +:+ isoformat a +:+ "' AND '" +:+ isoformat b +:+ "'")
  ∧ (∀ a, query_date_filter [Some a; None]
          = "WHERE DATETIME(timestamp, 'America/Santiago') >= '"
            +:+ isoformat a +:+ "'")
  ∧ (∀ a b : option date, unpack_pair [a; b] = Some (a, b))
  ∧ (∀ a b, query_date_filter [a; b]
            = match b with
              | Some _ => between_filter a b
              | None => since_filter a
              end)
  ∧ (∀ a : option date,
       unpack_pair [a] = None ∧ query_date_filter [a] = since_filter a)
  ∧ (∀ (a b c : option date) w, unpack_pair (a :: b :: c :: w) = None
                ∧ query_date_filter (a :: b :: c :: w) = since_filter a)
  ∧ (∀ (a : option date) w, unpack_pair (a :: w) = None →
       query_date_filter (a :: w) = since_filter a).
Proof.
  split; [reflexivity|]. split; [reflexivity|]. split; [reflexivity|].
  split; [reflexivity|]. split; [by intros a []|]. split; [by intros a|].
  split; [by intros a b c w|].
  intros a [|b [|c w]]; [reflexivity|discriminate|reflexivity].
Qed.

Lemma window_filter_witness :
  unpack_pair [Some (Date 2023 8 1)] = None
  ∧ query_date_filter [Some (Date 2023 8 1)]
    = "WHERE DATETIME(timestamp, 'America/Santiago') >= '2023-08-01'".
Proof.
  split; [reflexivity|].
  rewrite (proj2 (proj2 (proj2 (proj2 (proj2 (proj2 (proj2 window_filter))))))
             (Some (Date 2023 8 1)) [] eq_refl).
  reflexivity.
Defined.

(** ** Rows that differ in the raw tariff only *)

Lemma result_rel_eq {A} (m m' : result A) : result_rel eq m m' ↔ m = m'.
Proof. destruct m, m'; simpl; split; intros H; congruence || done. Qed.

Lemma bind_rel {A C} (R : A → A → Prop) (S : C → C → Prop)
    (m m' : result A) (f f' : A → result C) :
  result_rel R m m' →
  (∀ a a', R a a' → result_rel S (f a) (f' a')) →
  result_rel S (m ≫= f) (m' ≫= f').
Proof.
  destruct m as [a|e], m' as [a'|e']; simpl; intros Hm Hf; try done.
  by apply Hf.
Qed.

Lemma sim_refl (r : row) : sim r r.
Proof. split; reflexivity. Qed.

Lemma sim_dom (r r' : row) : sim r r' → dom r = dom r'.
Proof.
  intros [Hk Ht]. apply set_eq. intros k. rewrite !elem_of_dom.
  destruct (decide (k = "tariff")) as [->|Hne]; [|by rewrite Hk].
  rewrite <- !(fmap_is_Some label_of), Ht. reflexivity.
Qed.

Lemma sim_insert (k : string) (c : cell) (r r' : row) :
  k ≠ "tariff" → sim r r' → sim (<[k:=c]> r) (<[k:=c]> r').
Proof.
  intros Hne [Hk Ht]. split.
  - intros k' Hk'. destruct (decide (k = k')) as [->|Hkk'].
    + by rewrite !lookup_insert_eq.
    + rewrite !lookup_insert_ne by done. by apply Hk.
  - by rewrite !lookup_insert_ne by done.
Qed.

Lemma sim_union (l r r' : row) : sim r r' → sim (l ∪ r) (l ∪ r').
Proof.
  intros [Hk Ht]. split.
  - intros k Hne. rewrite !lookup_union, Hk by done. reflexivity.
  - rewrite !lookup_union.
    destruct (l !! "tariff"), (r !! "tariff"), (r' !! "tariff");
      simpl in *; congruence.
Qed.

Lemma getitem_sim (r r' : row) (k : string) :
  sim r r' → k ≠ "tariff" → getitem r k = getitem r' k.
Proof. intros [Hk _] Hne. unfold getitem. by rewrite Hk. Qed.

Lemma normalize_tariffs_sim (r r' : row) :
  sim r r' → normalize_tariffs r = normalize_tariffs r'.
Proof.
  intros [Hk Ht].
  destruct (r !! "tariff") as [t|] eqn:E, (r' !! "tariff") as [t'|] eqn:E';
    try discriminate.
  - injection Ht as Ht.
    rewrite (proj2 (normalize_tariffs_Ok r _) (ex_intro _ t (conj E eq_refl))).
    rewrite (proj2 (normalize_tariffs_Ok r' _) (ex_intro _ t' (conj E' eq_refl))).
    f_equal. rewrite Ht. apply map_eq. intros k.
    destruct (decide (k = "tariff")) as [->|Hne].
    + by rewrite !lookup_insert_eq.
    + rewrite !lookup_insert_ne by done. by apply Hk.
  - unfold normalize_tariffs, getitem. by rewrite E, E'.
Qed.

Section row_functions_sim.
Context `{B : Builtins}.

Lemma set_barcode_image_sim (r r' : row) :
  sim r r' → result_rel sim (set_barcode_image r) (set_barcode_image r').
Proof.
  intros H. unfold set_barcode_image.
  rewrite (getitem_sim r r') by done.
  destruct (getitem r' _); simpl; [|reflexivity]. by apply sim_insert.
Qed.

Lemma normalize_coordinates_sim (r r' : row) :
  sim r r' → result_rel sim (normalize_coordinates r) (normalize_coordinates r').
Proof.
  intros H. unfold normalize_coordinates.
  rewrite (getitem_sim r r') by done.
  destruct (getitem r' "lat") as [x|]; simpl; [|reflexivity].
  destruct (py_float x) as [fx|]; simpl; [|reflexivity].
  rewrite (getitem_sim (<["lat":=CFloat fx]> r) (<["lat":=CFloat fx]> r'))
    by (done || by apply sim_insert).
  destruct (getitem _ "lon") as [y|]; simpl; [|reflexivity].
  destruct (py_float y) as [fy|]; simpl; [|reflexivity].
  by repeat apply sim_insert.
Qed.
End row_functions_sim.

(** *** Frames of such rows *)

Lemma frame_rel_eq (fr fr' : frame) : frame_rel eq fr fr' → fr = fr'.
Proof.
  destruct fr as [cols rs], fr' as [cols' rs']. intros [Hc Hr]. simpl in *.
  f_equal; [assumption|]. induction Hr; congruence.
Qed.

Lemma frame_rel_refl (fr : frame) : frame_rel sim fr fr.
Proof.
  split; [reflexivity|]. apply Forall_Forall2_diag, Forall_forall.
  intros r _. apply sim_refl.
Qed.

Lemma map_rows_rel (R R' : row → row → Prop) (f f' : row → result row)
    (rs rs' : list row) :
  (∀ r r', R r r' → result_rel R' (f r) (f' r')) →
  Forall2 R rs rs' →
  result_rel (Forall2 R') (map_rows f rs) (map_rows f' rs').
Proof.
  intros Hf Hrs. induction Hrs as [|r r' rs rs' Hr _ IH]; simpl; [constructor|].
  eapply bind_rel; [by apply Hf|]. intros a a' Ha.
  eapply bind_rel; [exact IH|]. intros l l' Hl. simpl. by constructor.
Qed.

Lemma apply_rows_rel (R R' : row → row → Prop) (f f' : row → result row)
    (fr fr' : frame) :
  (∀ r r', R r r' → result_rel R' (f r) (f' r')) →
  (∀ r r', R' r r' → dom r = dom r') →
  frame_rel R fr fr' → (rows fr = [] → frame_rel R' fr fr') →
  result_rel (frame_rel R') (apply_rows f fr) (apply_rows f' fr').
Proof.
  intros Hf Hdom [Hc Hr] Hnil. unfold apply_rows.
  destruct Hr as [|r r' rs rs' Hr Hrs]; [by apply Hnil|].
  eapply bind_rel; [apply (map_rows_rel R R'); [exact Hf | by constructor]|].
  intros l l' Hl. simpl. split; [|exact Hl]. simpl.
  destruct Hl as [|a a' ? ? Ha _]; simpl; [assumption|].
  unfold row_index. by rewrite (Hdom a a').
Qed.

Lemma select_rows_rel (R : row → row → Prop) (mask : list bool)
    (rs rs' : list row) :
  Forall2 R rs rs' → Forall2 R (select_rows mask rs) (select_rows mask rs').
Proof.
  intros Hrs. revert mask.
  induction Hrs as [|r r' rs rs' Hr _ IH]; intros [|[] mask]; simpl;
    try constructor; auto.
Qed.

Lemma getcolumn_sim (fr fr' : frame) (k : string) :
  frame_rel sim fr fr' → k ≠ "tariff" → getcolumn fr k = getcolumn fr' k.
Proof.
  intros [Hc Hr] Hne. unfold getcolumn. rewrite Hc.
  case_bool_decide; [|reflexivity]. f_equal.
  induction Hr as [|r r' rs rs' [Hk _] _ IH]; [reflexivity|].
  rewrite !fmap_cons, IH, Hk by done. reflexivity.
Qed.

Lemma drop_retries_sim (fr fr' : frame) :
  frame_rel sim fr fr' →
  result_rel (frame_rel sim) (drop_retries fr) (drop_retries fr').
Proof.
  intros H. unfold drop_retries.
  rewrite (getcolumn_sim fr fr') by done.
  destruct (getcolumn fr' _) as [ids|]; simpl; [|reflexivity].
  destruct (invert _) as [keep|]; simpl; [|reflexivity].
  destruct H as [Hc Hr]. split; [exact Hc|]. by apply select_rows_rel.
Qed.

Lemma filter_rel {A} (R : A → A → Prop) (p : A → bool) (l l' : list A) :
  (∀ a a', R a a' → p a = p a') →
  Forall2 R l l' → Forall2 R (List.filter p l) (List.filter p l').
Proof.
  intros Hp Hl. induction Hl as [|a a' l l' Ha _ IH]; simpl; [constructor|].
  rewrite <- (Hp a a') by assumption. destruct (p a); [constructor|]; assumption.
Qed.

Lemma join_row_sim (right right' : frame) (on : string) (key : cell) (l : row) :
  frame_rel sim right right' → on ≠ "tariff" →
  Forall2 sim (join_row right on key l) (join_row right' on key l).
Proof.
  intros [Hc Hr] Hne. unfold join_row. rewrite Hc.
  pose proof (filter_rel sim (λ r, key_match key (default NaN (r !! on)))
                (rows right) (rows right')) as Hf.
  destruct Hf as [|r r' rs rs' Hrr' Hrs]; [|assumption| |].
  - intros a a' [Hk _]. by rewrite Hk.
  - constructor; [apply sim_refl|constructor].
  - rewrite !fmap_cons. constructor; [by apply sim_union|].
    apply Forall2_fmap. eapply Forall2_impl; [exact Hrs|].
    intros. by apply sim_union.
Qed.

Lemma merge_left_sim (left right right' : frame) (left_on right_on : string) :
  frame_rel sim right right' → right_on ≠ "tariff" →
  result_rel (frame_rel sim)
    (merge_left left right left_on right_on)
    (merge_left left right' left_on right_on).
Proof.
  intros H Hne. unfold merge_left.
  destruct (getcolumn left left_on); simpl; [|reflexivity].
  rewrite (getcolumn_sim right right') by done.
  destruct (getcolumn right' right_on); simpl; [|reflexivity].
  split; simpl; [by rewrite (proj1 H)|].
  induction (rows left) as [|l ls IH]; [constructor|].
  rewrite !bind_cons. apply Forall2_app; [|exact IH].
  by apply join_row_sim.
Qed.

Lemma result_rel_refl {A} (R : A → A → Prop) (m : result A) :
  (∀ a, R a a) → result_rel R m m.
Proof. intros HR. destruct m; simpl; auto. Qed.

Lemma result_rel_frame_eq (m m' : result frame) :
  result_rel (frame_rel eq) m m' → m = m'.
Proof.
  destruct m, m'; simpl; try done; [|congruence].
  intros H. f_equal. by apply frame_rel_eq.
Qed.

Lemma frame_rel_nil (R R' : row → row → Prop) (fr fr' : frame) :
  frame_rel R fr fr' → rows fr = [] → frame_rel R' fr fr'.
Proof.
  intros [Hc Hr] Hnil. split; [exact Hc|]. rewrite Hnil in *.
  inversion Hr. constructor.
Qed.

Lemma order_row_sim (o : order) (t' : cell) :
  label_of (tariff o) = label_of t' →
  sim (order_row o) (order_row (with_tariff o t')).
Proof.
  intros Hl.
  assert (order_row (with_tariff o t') = <["tariff" := t']> (order_row o)) as ->
    by reflexivity.
  split.
  - intros k Hne. by rewrite lookup_insert_ne.
  - rewrite lookup_insert_eq.
    change (order_row o !! "tariff") with (Some (tariff o)). simpl. by rewrite Hl.
Qed.

Section independence.
Context `{B : Builtins}.

Lemma passes_sim (fr fr' : frame) :
  frame_rel sim fr fr' →
  (fr1 ← apply_rows set_barcode_image fr;
   fr2 ← apply_rows normalize_coordinates fr1;
   fr3 ← apply_rows normalize_tariffs fr2;
   fr4 ← apply_rows refactor_lo_code fr3;
   apply_rows set_status fr4)
  = (fr1 ← apply_rows set_barcode_image fr';
     fr2 ← apply_rows normalize_coordinates fr1;
     fr3 ← apply_rows normalize_tariffs fr2;
     fr4 ← apply_rows refactor_lo_code fr3;
     apply_rows set_status fr4).
Proof.
  intros H. apply result_rel_frame_eq.
  eapply bind_rel.
  { apply (apply_rows_rel sim sim); [apply set_barcode_image_sim|apply sim_dom
                                    |exact H|intros _; exact H]. }
  intros fr1 fr1' H1. eapply bind_rel.
  { apply (apply_rows_rel sim sim); [apply normalize_coordinates_sim|apply sim_dom
                                    |exact H1|intros _; exact H1]. }
  intros fr2 fr2' H2. eapply bind_rel.
  { apply (apply_rows_rel sim eq); [|by intros ? ? ->|exact H2
                                   |by apply (frame_rel_nil sim eq)].
    intros r r' Hr. apply result_rel_eq. by apply normalize_tariffs_sim. }
  intros fr3 fr3' H3. apply frame_rel_eq in H3 as <-.
  apply result_rel_refl. intros fr4. split; [reflexivity|].
  apply Forall_Forall2_diag, Forall_forall. reflexivity.
Qed.

Lemma merged_frame_sim (scans : list scan) (orders orders' : list order) :
  Forall2 (λ o o', o' = with_tariff o (tariff o')
                   ∧ label_of (tariff o) = label_of (tariff o'))
    orders orders' →
  merged_frame scans orders = merged_frame scans orders'.
Proof.
  intros Ho.
  assert (Hfr : frame_rel sim (orders_frame orders) (orders_frame orders')).
  { split; [reflexivity|]. simpl. apply Forall2_fmap.
    eapply Forall2_impl; [exact Ho|]. intros o o' [Heq Hl].
    rewrite Heq. by apply order_row_sim. }
  unfold merged_frame.
  pose proof (drop_retries_sim _ _ Hfr) as Hd.
  destruct (drop_retries (orders_frame orders)) as [p|e],
           (drop_retries (orders_frame orders')) as [p'|e'];
    simpl in *; try done; [|congruence].
  pose proof (merge_left_sim (scans_frame scans) p p'
                "scanned_barcode_value" "barcode" Hd ltac:(done)) as Hm.
  destruct (merge_left _ p _ _) as [m|e], (merge_left _ p' _ _) as [m'|e'];
    simpl in *.
  - by apply passes_sim.
  - destruct Hm.
  - destruct Hm.
  - by rewrite Hm.
Qed.
End independence.

(** C10: [normalize_tariffs] writes the label over the raw tariff, so the
    tariff of every reconciled record, before the boxes and in the table,
    is one of the three labels, and nothing of the raw value is left: two
    order lists that differ only in raw tariffs with the same labels give
    the same reconciled frame and the same page for every selection. *)
Theorem raw_tariff_not_retained `{B : Builtins} (scans : list scan)
    (orders orders' : list order) :
  Forall2 (λ o o', o' = with_tariff o (tariff o')
                   ∧ label_of (tariff o) = label_of (tariff o'))
    orders orders' →
  let label (c : option cell) :=
    c = Some (CStr "Unknown") ∨ c = Some (CStr "SDD") ∨ c = Some (CStr "NDD") in
  merged_frame scans orders = merged_frame scans orders'
  ∧ (∀ sel, script scans orders sel = script scans orders' sel)
  ∧ (∀ fr r, merged_frame scans orders = Ok fr → r ∈ rows fr →
       label (r !! "tariff"))
  ∧ (∀ sel p r, script scans orders sel = Ok p →
       r ∈ rows (visible_frame p) → label (r !! "tariff")).
Proof.
  intros Ho label.
  assert (Hlabel : ∀ fr r, merged_frame scans orders = Ok fr → r ∈ rows fr →
            label (r !! "tariff")).
  { intros fr r Hfr Hr.
    destruct (reconciled_row _ _ _ _ Hfr Hr) as (r0 & _ & Hp).
    apply process_row_Ok in Hp
      as (? & ? & ? & ? & ? & t & ? & ? & _ & _ & _ & _ & _ & _ & _ & _
          & ? & _ & ->).
    rewrite !lookup_insert_ne by done. rewrite lookup_insert_eq.
    unfold label, label_of. destruct (isna t); [auto|].
    destruct (eq_zero t); auto. }
  split; [by apply merged_frame_sim|]. split; [|split; [exact Hlabel|]].
  - intros sel. unfold script. by rewrite (merged_frame_sim scans orders orders').
  - intros sel p r Hp Hr.
    apply script_Ok in Hp as (fr & Hfr & _ & _ & Hv). rewrite Hv in Hr.
    simpl in Hr. apply list_elem_of_fmap in Hr as (r' & -> & Hr').
    rewrite list_elem_of_In, filter_In, <- list_elem_of_In in Hr'.
    rewrite visible_part_lookup by column_in.
    apply (Hlabel fr r' Hfr). tauto.
Qed.

Lemma raw_tariff_not_retained_witness :
  merged_frame (B := Sample.builtins) Demo.scans Demo.orders
  = merged_frame (B := Sample.builtins) Demo.scans
      [with_tariff (Order (Some "XYZ999") (Some "EXT-1") (Some "42")
                      (Some "req-1") None (CInt 0) (Some "created")
                      (Some "new") (Some "2023-08-14 18:00:00")
                      (Some "client-1"))
         (CFloat (S754_zero true));
       with_tariff (Order (Some "XYZ999") (Some "EXT-1_RETRY_1") (Some "43")
                      (Some "req-2") (Some "CL-1") (CInt 2) (Some "created")
                      (Some "new") (Some "2023-08-14 19:00:00")
                      (Some "client-1"))
         (CStr "express")].
Proof.
  apply (raw_tariff_not_retained (B := Sample.builtins)).
  repeat constructor.
Defined.

(** Through the five passes the scan columns other than the position stay
    as the join left them, and the position holds what [float] made of it. *)
Lemma reconciled_scan_columns `{B : Builtins} (scans : list scan)
    (orders : list order) (fr : frame) :
  merged_frame scans orders = Ok fr →
  Forall2 (λ r0 r,
    (∀ k, k ∈ ["scan_dttm"; "corp_client_id"; "courier_uuid";
               "scanned_barcode_value"; "store_name"] → r !! k = r0 !! k)
    ∧ ∃ x y fx fy,
        r0 !! "lat" = Some x ∧ py_float x = Ok fx ∧ r !! "lat" = Some (CFloat fx)
        ∧ r0 !! "lon" = Some y ∧ py_float y = Ok fy
        ∧ r !! "lon" = Some (CFloat fy))
    (rows (joined scans orders)) (rows fr).
Proof.
  intros H. apply merged_frame_Ok in H as (_ & _ & _ & Hrows & _).
  eapply Forall2_impl; [exact Hrows|]. intros r0 r Hp.
  apply process_row_Ok in Hp
    as (? & x & y & fx & fy & ? & ? & ? & _ & Hx & Hy & Hfx & Hfy & _ & _ & _
        & ? & _ & ->).
  split.
  - intros k Hk.
    repeat (apply elem_of_cons in Hk as [->|Hk];
            [by rewrite !lookup_insert_ne by done|]).
    by apply not_elem_of_nil in Hk.
  - exists x, y, fx, fy. repeat (split; [assumption|]).
    split; [|split; [assumption|split; [assumption|]]].
    + rewrite !lookup_insert_ne by done. by rewrite lookup_insert_eq.
    + rewrite !lookup_insert_ne by done. by rewrite lookup_insert_eq.
Qed.

(** * Further properties of the script *)

(** ** The counters and the table *)

(** The status of a reconciled row, read off the row. *)
Lemma reconciled_status `{B : Builtins} (scans : list scan) (orders : list order) (fr : frame)
    (r : row) :
  merged_frame scans orders = Ok fr → r ∈ rows fr →
  ∃ b, r !! "barcode" = Some b ∧
    (isna b = true ∧ r !! "pick_status" = Some (CStr "Missing")
     ∨ isna b = false ∧ ∃ c, r !! "claim_id" = Some c ∧
         r !! "pick_status"
         = Some (CStr (if isna c then "Picked" else "Received"))).
Proof.
  intros H Hr. destruct (reconciled_row _ _ _ _ H Hr) as (r0 & _ & Hp).
  apply process_row_Ok in Hp
    as (? & ? & ? & ? & ? & ? & ? & b & _ & _ & _ & _ & _ & _ & _ & Hb
        & status & Hst & ->).
  exists b. rewrite lookup_insert_eq, !lookup_insert_ne by done.
  split; [assumption|].
  destruct Hst as [[Hna ->]|(Hna & c & Hc & ->)]; [left|right]; eauto.
Qed.

Lemma filter_length_le {A} (p : A → bool) (l : list A) :
  (length (List.filter p l) ≤ length l)%nat.
Proof.
  induction l as [|a l IH]; simpl; [lia|]. destruct (p a); simpl; lia.
Qed.

(** X1: the counter of match errors never exceeds the counter of scan
    events, the table never has more rows than the counter of scan events
    shows, and that counter, which counts reconciled records, is at least
    the number of scans. *)
Theorem counters_bound `{B : Builtins} (scans : list scan)
    (orders : list order) (sel : selection) (p : page) :
  script scans orders sel = Ok p →
  (scan_errors p ≤ scan_events p)%nat
  ∧ (len (visible_frame p) ≤ scan_events p)%nat
  ∧ (length scans ≤ scan_events p)%nat.
Proof.
  intros H. apply script_Ok in H as (fr & Hfr & -> & -> & ->).
  unfold len. simpl. rewrite length_fmap.
  split; [apply filter_length_le|]. split; [apply filter_length_le|].
  apply merged_frame_Ok in Hfr as (_ & _ & _ & Hrows & _).
  rewrite <- (Forall2_length _ _ _ Hrows). simpl. apply records_cover.
Qed.

Lemma counters_bound_witness :
  ∃ p, script (B := Sample.builtins) Demo.scans Demo.orders
         (Selection [CStr "courier-1"] [] [] []) = Ok p
    ∧ (scan_errors p ≤ scan_events p)%nat
    ∧ (len (visible_frame p) ≤ scan_events p)%nat
    ∧ (length Demo.scans ≤ scan_events p)%nat.
Proof.
  eexists. split; [vm_compute; reflexivity|].
  apply (counters_bound (B := Sample.builtins) Demo.scans Demo.orders
           (Selection [CStr "courier-1"] [] [] [])).
  vm_compute. reflexivity.
Defined.

Lemma three_way_count {A} (p q s : A → bool) (l : list A) :
  (∀ a, a ∈ l →
     (p a = true ∧ q a = false ∧ s a = false)
     ∨ (p a = false ∧ q a = true ∧ s a = false)
     ∨ (p a = false ∧ q a = false ∧ s a = true)) →
  (length (List.filter p l) + length (List.filter q l)
   + length (List.filter s l) = length l)%nat.
Proof.
  induction l as [|a l IH]; intros H; [reflexivity|].
  assert (Hl : ∀ a', a' ∈ l → _) by (intros a' Ha'; apply (H a'); by right).
  specialize (IH Hl). simpl.
  destruct (H a) as [(-> & -> & ->)|[(-> & -> & ->)|(-> & -> & ->)]];
    [by left|simpl; lia..].
Qed.

(** X2: every reconciled record has exactly one of the three statuses: the
    records that are Missing, Picked and Received add up to all records,
    so the counter of match errors and the other two make up the counter
    of scan events. *)
Theorem statuses_partition `{B : Builtins} (scans : list scan)
    (orders : list order) (fr : frame) :
  merged_frame scans orders = Ok fr →
  (length (with_status "Missing" fr) + length (with_status "Picked" fr)
   + length (with_status "Received" fr) = len fr)%nat.
Proof.
  intros H. apply three_way_count. intros r Hr.
  destruct (reconciled_status _ _ _ _ H Hr)
    as (b & _ & [[_ Hs]|(_ & c & _ & Hs)]); unfold cell_at; rewrite Hs; simpl.
  - left. done.
  - destruct (isna c); [right; left|right; right]; done.
Qed.

Lemma statuses_partition_witness :
  (length (with_status "Missing" Demo.merged)
   + length (with_status "Picked" Demo.merged)
   + length (with_status "Received" Demo.merged) = len Demo.merged)%nat.
Proof.
  apply (statuses_partition (B := Sample.builtins) Demo.scans Demo.orders).
  vm_compute. reflexivity.
Defined.

(** ** The page as a whole *)

Lemma find_None {A} (p : A → bool) (l : list A) :
  List.find p l = None ↔ ∀ a, a ∈ l → p a = false.
Proof.
  induction l as [|a l IH]; simpl.
  - split; [|reflexivity]. intros _ a Ha. by apply not_elem_of_nil in Ha.
  - destruct (p a) eqn:Hp.
    + split; [discriminate|]. intros H. rewrite (H a) in Hp by left. discriminate.
    + rewrite IH. split.
      * intros H a' Ha'. apply elem_of_cons in Ha' as [->|Ha']; auto.
      * intros H a' Ha'. apply H. by right.
Qed.

Lemma project_iff (fr fr' : frame) (cols : list string) :
  project fr cols = Ok fr' ↔
  (∀ k, k ∈ cols → k ∈ columns fr)
  ∧ fr' = DataFrame cols
            ((λ r : row, filter (λ kv, kv.1 ∈ cols) r) <$> rows fr).
Proof.
  unfold project. destruct (List.find _ cols) as [k|] eqn:Hf.
  - split; [discriminate|]. intros [Hall _].
    apply find_some in Hf as [Hk Hn]. apply list_elem_of_In, Hall in Hk.
    by rewrite bool_decide_eq_true_2 in Hn.
  - rewrite find_None in Hf. split.
    + intros [= <-]. split; [|reflexivity]. intros k Hk.
      specialize (Hf k Hk). apply negb_false_iff in Hf.
      by apply bool_decide_eq_true in Hf.
    + intros [_ ->]. reflexivity.
Qed.

(** When the script gives a page, and which. *)
Lemma script_iff `{B : Builtins} (scans : list scan) (orders : list order)
    (sel : selection) (p : page) :
  script scans orders sel = Ok p ↔
  ∃ fr, merged_frame scans orders = Ok fr
    ∧ "courier_uuid" ∈ columns fr ∧ "corp_client_id" ∈ columns fr
    ∧ "tariff" ∈ columns fr ∧ "pick_status" ∈ columns fr
    ∧ (∀ k, k ∈ visible_columns → k ∈ columns fr)
    ∧ p = Page (len fr) (length (List.filter is_missing (rows fr)))
            (DataFrame visible_columns
               (visible_part <$> List.filter (passes sel) (rows fr))).
Proof.
  unfold script. split.
  - intros H. apply bind_Ok in H as (fr & Hfr & H). exists fr.
    split; [assumption|].
    apply bind_Ok in H as (? & H1 & H). apply getcolumn_Ok in H1 as [H1 _].
    apply bind_Ok in H as (? & H2 & H). apply getcolumn_Ok in H2 as [H2 _].
    apply bind_Ok in H as (? & H3 & H). apply getcolumn_Ok in H3 as [H3 _].
    apply bind_Ok in H as (? & H4 & H). apply getcolumn_Ok in H4 as [H4 _].
    rewrite where_eq_Ok in H by assumption. simpl in H.
    rewrite apply_selection_Ok in H by assumption. simpl in H.
    apply bind_Ok in H as (v & Hv & [= <-]).
    apply project_iff in Hv as [Hcols ->]. simpl in Hcols.
    repeat (split; [assumption|]). reflexivity.
  - intros (fr & Hfr & H1 & H2 & H3 & H4 & Hcols & ->). rewrite Hfr. simpl.
    unfold getcolumn at 1 2 3 4. rewrite !bool_decide_eq_true_2 by assumption.
    simpl. rewrite where_eq_Ok by assumption. simpl.
    rewrite apply_selection_Ok by assumption. simpl.
    match goal with
    | |- context [project ?f ?c] =>
        rewrite (proj2 (project_iff f _ c) (conj Hcols eq_refl))
    end.
    reflexivity.
Qed.

(** X3: whether the page is shown does not depend on what is picked in the
    boxes: if the script gives a page for one selection it gives one for
    every selection, with the same two counters and the same twelve
    columns. *)
Theorem page_for_every_selection `{B : Builtins} (scans : list scan)
    (orders : list order) (sel sel' : selection) (p : page) :
  script scans orders sel = Ok p →
  ∃ p', script scans orders sel' = Ok p'
    ∧ scan_events p' = scan_events p ∧ scan_errors p' = scan_errors p
    ∧ columns (visible_frame p') = columns (visible_frame p).
Proof.
  intros H. apply script_iff in H as (fr & Hfr & H1 & H2 & H3 & H4 & Hc & ->).
  eexists. split.
  - apply script_iff. exists fr. repeat (split; [eassumption|]). reflexivity.
  - repeat split.
Qed.

Lemma page_for_every_selection_witness :
  ∃ p', script (B := Sample.builtins) Demo.scans Demo.orders
          (Selection [CStr "courier-9"] [] [CStr "SDD"] []) = Ok p'
    ∧ scan_events p' = 2%nat ∧ scan_errors p' = 1%nat
    ∧ columns (visible_frame p') = visible_columns.
Proof.
  apply (page_for_every_selection (B := Sample.builtins) Demo.scans
           Demo.orders Demo.nothing_picked
           (Selection [CStr "courier-9"] [] [CStr "SDD"] [])
           (Page 2 1 (DataFrame visible_columns
                        (visible_part <$> rows Demo.merged)))).
  vm_compute. reflexivity.
Defined.

(** ** The boxes once more *)

Lemma filter_idem {A} (p : A → bool) (l : list A) :
  List.filter p (List.filter p l) = List.filter p l.
Proof.
  rewrite filter_filter. apply List.filter_ext. intros a. by destruct (p a).
Qed.

(** X4: applying a selection to what it has already kept changes nothing,
    two boxes can be applied in either order, and picking more values in a
    box that is not empty never removes a row. *)
Theorem selection_algebra (fr : frame) (sel : selection) (k1 k2 : string)
    (v1 v2 : list cell) :
  "courier_uuid" ∈ columns fr → "corp_client_id" ∈ columns fr →
  "tariff" ∈ columns fr → "pick_status" ∈ columns fr →
  k1 ∈ columns fr → k2 ∈ columns fr →
  (fr1 ← apply_selection fr sel; apply_selection fr1 sel)
  = apply_selection fr sel
  ∧ (fr1 ← narrow fr k1 v1; narrow fr1 k2 v2)
    = (fr2 ← narrow fr k2 v2; narrow fr2 k1 v1)
  ∧ (v1 ≠ [] → v1 ⊆ v2 →
     ∃ out1 out2, narrow fr k1 v1 = Ok out1 ∧ narrow fr k1 v2 = Ok out2
       ∧ rows out1 ⊆ rows out2).
Proof.
  intros H1 H2 H3 H4 Hk1 Hk2. split; [|split].
  - rewrite apply_selection_Ok by assumption. simpl.
    rewrite apply_selection_Ok by assumption. simpl. by rewrite filter_idem.
  - rewrite !narrow_admits by assumption. simpl.
    rewrite !narrow_admits by assumption. simpl. rewrite !filter_filter.
    do 2 f_equal. apply List.filter_ext. intros r. apply andb_comm.
  - intros Hne Hsub. rewrite !narrow_admits by assumption.
    eexists _, _. split; [reflexivity|]. split; [reflexivity|]. simpl.
    intros r. rewrite !list_elem_of_In, !filter_In, !admitsb_admits.
    unfold admits. intros [Hr [Hnil|Hin]]; [done|]. split; [assumption|].
    right. by apply Hsub.
Qed.

Lemma selection_algebra_witness :
  (fr1 ← narrow Demo.merged "tariff" [CStr "SDD"];
   narrow fr1 "pick_status" [CStr "Picked"; CStr "Missing"])
  = (fr2 ← narrow Demo.merged "pick_status" [CStr "Picked"; CStr "Missing"];
     narrow fr2 "tariff" [CStr "SDD"]).
Proof.
  apply (selection_algebra Demo.merged Demo.nothing_picked "tariff"
           "pick_status" [CStr "SDD"] [CStr "Picked"; CStr "Missing"]);
    column_in.
Defined.

(** ** Orders without an id, windows without a scan *)

Lemma invert_Raise (mask : list (option bool)) (e : exn) :
  invert mask = Raise e → e = TypeError.
Proof.
  induction mask as [|[b|] mask IH]; simpl; [discriminate| |congruence].
  destruct (invert mask); simpl; [discriminate|]. intros [= <-]. by apply IH.
Qed.

Lemma drop_retries_Raise (orders : list order) :
  drop_retries (orders_frame orders) = Raise TypeError ↔
  ∃ o, o ∈ orders ∧ external_id o = None.
Proof.
  split.
  - intros H. apply Exists_exists.
    destruct (decide (Forall (λ o, is_Some (external_id o)) orders)) as [Hall|Hn].
    + pose proof (proj2 (drop_retries_orders orders _) (conj Hall eq_refl)) as Hok.
      congruence.
    + apply not_Forall_Exists in Hn; [|apply _].
      eapply Exists_impl; [exact Hn|]. intros o Ho. simpl in Ho.
      destruct (external_id o); [|reflexivity]. destruct Ho. eauto.
  - intros (o & Ho & Hid).
    destruct (drop_retries (orders_frame orders)) as [fr|e] eqn:E.
    + apply drop_retries_orders in E as [Hall _].
      rewrite Forall_forall in Hall. specialize (Hall o Ho).
      rewrite Hid in Hall. by destruct Hall.
    + f_equal. unfold drop_retries in E.
      destruct (getcolumn _ _) as [ids|] eqn:Hc; simpl in E.
      * destruct (invert _) as [keep|e'] eqn:Hi; simpl in E; [discriminate|].
        injection E as <-. by apply invert_Raise in Hi.
      * exfalso. unfold getcolumn in Hc.
        rewrite bool_decide_eq_true_2 in Hc by column_in. discriminate.
Qed.

(** X5: an order without external_id stops the script: the negated text
    search cannot negate the missing entry, and the script raises TypeError
    whatever the scans and the selection are; it is the only way in which
    the line that drops the retried orders raises. *)
Theorem missing_external_id_stops_script `{B : Builtins} (scans : list scan)
    (orders : list order) (sel : selection) :
  (∃ o, o ∈ orders ∧ external_id o = None) →
  drop_retries (orders_frame orders) = Raise TypeError
  ∧ merged_frame scans orders = Raise TypeError
  ∧ script scans orders sel = Raise TypeError.
Proof.
  intros H. apply drop_retries_Raise in H.
  split; [exact H|]. unfold script, merged_frame. rewrite H. split; reflexivity.
Qed.

Lemma missing_external_id_stops_script_witness :
  script (B := Sample.builtins) Demo.scans
    (Order (Some "XYZ999") None None None None CNone None None None None
     :: Demo.orders) Demo.nothing_picked
  = Raise TypeError.
Proof.
  apply (missing_external_id_stops_script (B := Sample.builtins)).
  eexists. split; [left|reflexivity].
Defined.

(** X6: when the scan query returns no row the script does not show an
    empty page: the row-wise passes leave the empty frame without the
    derived columns, and reading the pick_status column raises KeyError. *)
Theorem no_scan_no_page `{B : Builtins} (orders : list order)
    (sel : selection) :
  Forall (λ o, is_Some (external_id o)) orders →
  merged_frame [] orders
  = Ok (DataFrame (scan_columns ++ proxy_columns) [])
  ∧ script [] orders sel = Raise (KeyError "pick_status").
Proof.
  intros Hall.
  pose proof (proj2 (drop_retries_orders orders _) (conj Hall eq_refl)) as Hd.
  unfold script, merged_frame. rewrite Hd. split; reflexivity.
Qed.

Lemma no_scan_no_page_witness :
  script (B := Sample.builtins) [] Demo.orders Demo.nothing_picked
  = Raise (KeyError "pick_status").
Proof.
  apply (no_scan_no_page (B := Sample.builtins) Demo.orders Demo.nothing_picked).
  repeat constructor; by eexists.
Defined.

(** ** Scans and their orders *)

Lemma key_match_nullable (a b : option string) :
  key_match (of_nullable a) (of_nullable b) = true ↔ a = b.
Proof.
  unfold key_match. destruct a as [a|], b as [b|]; simpl;
    rewrite ?bool_decide_eq_true; split; congruence.
Qed.

Lemma filter_NoDup_key {A K} `{EqDecision K} (f : A → K) (p : A → bool)
    (k : K) (l : list A) :
  (∀ a, p a = true ↔ f a = k) → NoDup (f <$> l) →
  (length (List.filter p l) ≤ 1)%nat.
Proof.
  intros Hp. induction l as [|a l IH]; [simpl; lia|].
  rewrite fmap_cons, NoDup_cons. intros [Hnot Hnd]. simpl.
  destruct (p a) eqn:Ha; [|by apply IH]. simpl.
  assert (List.filter p l = []) as ->; [|simpl; lia].
  apply Hp in Ha. destruct (List.filter p l) as [|a' l'] eqn:Hf; [reflexivity|].
  assert (Hin : In a' (List.filter p l)) by (rewrite Hf; by left).
  apply filter_In in Hin as [Hin Ha']. apply Hp in Ha'.
  destruct Hnot. rewrite Ha, <- Ha'. apply list_elem_of_fmap.
  exists a'. split; [reflexivity|]. by apply list_elem_of_In.
Qed.

Lemma records_single (os : list order) (scans : list scan) :
  NoDup (barcode <$> os) →
  length (scans ≫= records_of (orders_frame os)) = length scans.
Proof.
  intros Hnd. induction scans as [|s scans IH]; [reflexivity|].
  rewrite bind_cons, length_app, IH, records_of_length.
  rewrite partners_orders_frame, length_fmap.
  pose proof (filter_NoDup_key barcode
                (λ o, key_match (scan_key s) (of_nullable (barcode o)))
                (scanned_barcode_value s) os) as Hle.
  simpl. rewrite Nat.max_l; [reflexivity|]. apply Hle; [|assumption].
  intros o. unfold scan_key. rewrite key_match_nullable. split; congruence.
Qed.

(** X7: when no two orders that reach the join carry the same barcode, the
    join does not fan out: the reconciled frame, and with it the counter of
    scan events, has exactly one record per scan. *)
Theorem one_record_per_scan `{B : Builtins} (scans : list scan)
    (orders : list order) (sel : selection) (p : page) :
  NoDup (barcode <$> List.filter (λ o, negb (retried o)) orders) →
  script scans orders sel = Ok p →
  scan_events p = length scans.
Proof.
  intros Hnd H. apply script_Ok in H as (fr & Hfr & -> & _).
  apply merged_frame_Ok in Hfr as (_ & _ & _ & Hrows & _).
  unfold len. rewrite <- (Forall2_length _ _ _ Hrows). simpl.
  by apply records_single.
Qed.

Lemma one_record_per_scan_witness :
  ∃ p, script (B := Sample.builtins) Demo.scans Demo.orders
         Demo.nothing_picked = Ok p
    ∧ scan_events p = length Demo.scans.
Proof.
  eexists. split; [vm_compute; reflexivity|].
  apply (one_record_per_scan (B := Sample.builtins) Demo.scans Demo.orders
           Demo.nothing_picked).
  - vm_compute. repeat constructor. intros H. inversion H.
  - vm_compute. reflexivity.
Defined.

Lemma Forall2_bind_inv {A C D} (R : C → D → Prop) (f : A → list C)
    (l : list A) (k : list D) :
  Forall2 R (l ≫= f) k →
  ∃ groups, k = concat groups ∧ Forall2 (λ a g, Forall2 R (f a) g) l groups.
Proof.
  revert k. induction l as [|a l IH]; intros k H.
  - inversion H. exists []. split; [reflexivity|constructor].
  - rewrite bind_cons in H. apply Forall2_app_inv_l in H as (k1 & k2 & H1 & H2 & ->).
    destruct (IH k2 H2) as (groups & -> & Hg).
    exists (k1 :: groups). split; [reflexivity|]. by constructor.
Qed.

Lemma Forall2_filter_l {A C} (R : A → C → Prop) (p : A → bool) (l : list A)
    (k : list C) :
  Forall2 R (List.filter p l) k →
  Forall2 (λ a c, p a = true ∧ a ∈ l ∧ R a c) (List.filter p l) k.
Proof.
  intros H. apply Forall2_same_length_lookup. split.
  - by eapply Forall2_length.
  - intros i a c Ha Hc. pose proof (Forall2_lookup_lr _ _ _ _ _ _ H Ha Hc).
    apply list_elem_of_lookup_2, list_elem_of_In, filter_In in Ha as [Hin Hp].
    apply list_elem_of_In in Hin. auto.
Qed.

(** X8: from scans and orders to statuses.  The reconciled records come in
    groups, one per scan in the order of the scans.  A scan whose code no
    kept order carries has one record, Missing.  Otherwise it has one
    record for every kept order with its code, in the order of the orders,
    showing that order's external_id: Picked when the order has no
    claim_id, Received when it has one, and Missing when the scan has no
    code at all and met the orders without a barcode. *)
Theorem statuses_from_orders `{B : Builtins} (scans : list scan)
    (orders : list order) (fr : frame) :
  merged_frame scans orders = Ok fr →
  ∃ groups, rows fr = concat groups ∧
    Forall2 (λ s group,
      match List.filter (λ o, key_match (scan_key s) (of_nullable (barcode o)))
              (kept orders) with
      | [] => ∃ r, group = [r] ∧ r !! "pick_status" = Some (CStr "Missing")
      | matching =>
          Forall2 (λ o r,
            scanned_barcode_value s = barcode o ∧
            r !! "external_id" = Some (of_nullable (external_id o)) ∧
            r !! "pick_status"
            = Some (CStr match barcode o, claim_id o with
                         | None, _ => "Missing"
                         | Some _, None => "Picked"
                         | Some _, Some _ => "Received"
                         end)) matching group
      end) scans groups.
Proof.
  intros H. apply merged_frame_Ok in H as (_ & _ & _ & Hrows & _).
  simpl in Hrows. apply Forall2_bind_inv in Hrows as (groups & Hc & Hg).
  exists groups. split; [assumption|].
  eapply Forall2_impl; [exact Hg|]. clear. intros s group Hgroup.
  cbv beta in Hgroup. rewrite records_of_orders in Hgroup.
  pose proof (Forall2_filter_l (λ o r, process_row (scan_row s ∪ order_row o) = Ok r)
                (λ o, key_match (scan_key s) (of_nullable (barcode o)))
                (kept orders) group) as Hm.
  destruct (List.filter _ (kept orders)) as [|o os'].
  - inversion Hgroup as [|r0 r ? ? Hp Hnil]; subst. inversion Hnil; subst.
    exists r. split; [reflexivity|].
    apply process_row_Ok in Hp
      as (? & ? & ? & ? & ? & ? & ? & b & _ & _ & _ & _ & _ & _ & _ & Hb
          & status & Hst & ->).
    rewrite lookup_insert_eq.
    rewrite order_columns_joined, missing_row_proxy in Hb by column_in.
    injection Hb as <-. by destruct Hst as [[_ ->]|[? _]].
  - apply Forall2_fmap_l in Hgroup. specialize (Hm Hgroup).
    eapply Forall2_impl; [exact Hm|]. clear. intros o' r (Hkey & _ & Hp).
    unfold scan_key in Hkey. apply key_match_nullable in Hkey.
    split; [assumption|].
    apply process_row_Ok in Hp
      as (? & ? & ? & ? & ? & ? & ? & b & _ & _ & _ & _ & _ & _ & _ & Hb
          & status & Hst & ->).
    rewrite lookup_insert_eq, !lookup_insert_ne by done.
    rewrite order_columns_joined in * by column_in.
    change (order_row o' !! "barcode")
      with (Some (of_nullable (barcode o'))) in Hb.
    injection Hb as <-. split; [reflexivity|].
    destruct Hst as [[Hna ->]|(Hna & c & Hc & ->)].
    + by destruct (barcode o').
    + change (order_row o' !! "claim_id")
        with (Some (of_nullable (claim_id o'))) in Hc.
      injection Hc as <-. destruct (barcode o'); [|discriminate].
      by destruct (claim_id o').
Qed.

Lemma statuses_from_orders_witness :
  ∃ groups, rows Demo.merged = concat groups ∧ length groups = 2%nat.
Proof.
  destruct (statuses_from_orders (B := Sample.builtins) Demo.scans Demo.orders
              Demo.merged) as (groups & Hc & Hg).
  - vm_compute. reflexivity.
  - exists groups. split; [assumption|].
    by rewrite <- (Forall2_length _ _ _ Hg).
Defined.

(** ** When the script shows a page *)

Lemma Ok_bind {A C} (a : A) (f : A → result C) : Ok a ≫= f = f a.
Proof. reflexivity. Qed.

Lemma set_status_intro (r : row) (b c : cell) :
  r !! "barcode" = Some b → r !! "claim_id" = Some c →
  set_status r
  = Ok (<["pick_status" :=
           CStr (if isna b then "Missing"
                 else if isna c then "Picked" else "Received")]> r).
Proof.
  intros Hb Hc. unfold set_status, getitem. rewrite Hb. simpl.
  destruct (isna b); [reflexivity|]. rewrite Hc. simpl.
  destruct (isna c); reflexivity.
Qed.

Lemma process_row_intro `{B : Builtins} (r : row) (code x y t v b c : cell)
    (fx fy : spec_float) :
  r !! "scanned_barcode_value" = Some code →
  r !! "lat" = Some x → r !! "lon" = Some y →
  py_float x = Ok fx → py_float y = Ok fy →
  r !! "tariff" = Some t → r !! "lo_code" = Some v →
  r !! "barcode" = Some b → r !! "claim_id" = Some c →
  process_row r
  = Ok (<["pick_status" :=
           CStr (if isna b then "Missing"
                 else if isna c then "Picked" else "Received")]>
          (<["lo_code" := display_of v]>
             (<["tariff" := CStr (label_of t)]>
                (<["lon" := CFloat fy]>
                   (<["lat" := CFloat fx]>
                      (<["scannable_qr" := qr_of code]> r)))))).
Proof.
  intros Hcode Hx Hy Hfx Hfy Ht Hv Hb Hc. unfold process_row.
  rewrite (proj2 (set_barcode_image_Ok r _)
             (ex_intro _ code (conj Hcode eq_refl))). simpl.
  erewrite (proj2 (normalize_coordinates_Ok _ _)); simpl.
  2:{ exists x, y, fx, fy. rewrite !lookup_insert_ne by done. eauto 10. }
  erewrite (proj2 (normalize_tariffs_Ok _ _)); simpl.
  2:{ exists t. rewrite !lookup_insert_ne by done. eauto. }
  erewrite (proj2 (refactor_lo_code_Ok _ _)); simpl.
  2:{ exists v. rewrite !lookup_insert_ne by done. eauto. }
  apply set_status_intro; by rewrite !lookup_insert_ne by done.
Qed.

Lemma Forall2_split_mid {A} (P Q : A → A → Prop) (l1 l3 : list A) :
  Forall2 (λ a c, ∃ b, P a b ∧ Q b c) l1 l3 →
  ∃ l2, Forall2 P l1 l2 ∧ Forall2 Q l2 l3.
Proof.
  induction 1 as [|a c l1 l3 (b & Hab & Hbc) _ (l2 & H12 & H23)].
  - exists []. split; constructor.
  - exists (b :: l2). split; by constructor.
Qed.

Lemma apply_rows_intro (f : row → result row) (fr : frame) (r' : row)
    (rs' : list row) :
  Forall2 (λ r r', f r = Ok r') (rows fr) (r' :: rs') →
  apply_rows f fr = Ok (DataFrame (row_index r') (r' :: rs')).
Proof.
  intros H. unfold apply_rows.
  destruct (rows fr) as [|r rs] eqn:E; [inversion H|].
  apply map_rows_Ok in H. rewrite H. reflexivity.
Qed.

Lemma passes_intro `{B : Builtins} (fr0 : frame) (r' : row) (rs' : list row) :
  Forall2 (λ r r', process_row r = Ok r') (rows fr0) (r' :: rs') →
  (fr1 ← apply_rows set_barcode_image fr0;
   fr2 ← apply_rows normalize_coordinates fr1;
   fr3 ← apply_rows normalize_tariffs fr2;
   fr4 ← apply_rows refactor_lo_code fr3;
   apply_rows set_status fr4)
  = Ok (DataFrame (row_index r') (r' :: rs')).
Proof.
  intros H.
  assert (H' : Forall2 (λ r r5, ∃ r1, set_barcode_image r = Ok r1 ∧
                 ∃ r2, normalize_coordinates r1 = Ok r2 ∧
                 ∃ r3, normalize_tariffs r2 = Ok r3 ∧
                 ∃ r4, refactor_lo_code r3 = Ok r4 ∧ set_status r4 = Ok r5)
                (rows fr0) (r' :: rs')).
  { eapply Forall2_impl; [exact H|]. intros r r5 Hp. unfold process_row in Hp.
    apply bind_Ok in Hp as (r1 & H1 & Hp). apply bind_Ok in Hp as (r2 & H2 & Hp).
    apply bind_Ok in Hp as (r3 & H3 & Hp). apply bind_Ok in Hp as (r4 & H4 & Hp).
    eauto 10. }
  apply Forall2_split_mid in H' as (l1 & H1 & H').
  apply Forall2_split_mid in H' as (l2 & H2 & H').
  apply Forall2_split_mid in H' as (l3 & H3 & H').
  apply Forall2_split_mid in H' as (l4 & H4 & H5).
  destruct l4 as [|a4 l4]; [inversion H5|].
  destruct l3 as [|a3 l3]; [inversion H4|].
  destruct l2 as [|a2 l2]; [inversion H3|].
  destruct l1 as [|a1 l1]; [inversion H2|].
  rewrite (apply_rows_intro _ _ _ _ H1). simpl.
  rewrite (apply_rows_intro _ (DataFrame _ _) _ _ H2). simpl.
  rewrite (apply_rows_intro _ (DataFrame _ _) _ _ H3). simpl.
  rewrite (apply_rows_intro _ (DataFrame _ _) _ _ H4). simpl.
  by rewrite (apply_rows_intro _ (DataFrame _ _) _ _ H5).
Qed.

Lemma joined_row_lookups (scans : list scan) (orders : list order) (r0 : row) :
  r0 ∈ rows (joined scans orders) →
  (∃ s, s ∈ scans
     ∧ r0 !! "scanned_barcode_value" = Some (scan_key s)
     ∧ r0 !! "lat" = Some (of_nullable (lat s))
     ∧ r0 !! "lon" = Some (of_nullable (lon s)))
  ∧ ∀ k, k ∈ (scan_columns ++ proxy_columns)%list → is_Some (r0 !! k).
Proof.
  intros Hr0. split.
  - apply joined_row in Hr0 as (s & Hs & [->|(o & _ & -> & _)]); exists s;
      by rewrite !scan_columns_kept by column_in.
  - intros k Hk. apply elem_of_app in Hk as [Hk|Hk].
    + apply joined_row in Hr0 as (s & _ & [->|(o & _ & -> & _)]);
        rewrite scan_columns_kept by assumption; unfold scan_columns in Hk;
        repeat (apply elem_of_cons in Hk as [->|Hk]; [by eexists|]);
        by apply not_elem_of_nil in Hk.
    + by eapply joined_order_column.
Qed.

Lemma process_row_keeps `{B : Builtins} (r0 r : row) :
  process_row r0 = Ok r →
  (∀ k, is_Some (r0 !! k) → is_Some (r !! k))
  ∧ is_Some (r !! "pick_status") ∧ is_Some (r !! "scannable_qr").
Proof.
  intros Hp. apply process_row_Ok in Hp
    as (? & ? & ? & ? & ? & ? & ? & ? & _ & _ & _ & _ & _ & _ & _ & _
        & ? & _ & ->).
  split; [|split].
  - intros k Hk. rewrite !lookup_insert_is_Some'. auto 10.
  - rewrite lookup_insert_eq. eauto.
  - rewrite !lookup_insert_ne by done. rewrite lookup_insert_eq. eauto.
Qed.

Lemma Forall_exists_Forall2 {A C} (R : A → C → Prop) (l : list A) :
  Forall (λ a, ∃ c, R a c) l → ∃ k, Forall2 R l k.
Proof.
  induction 1 as [|a l [c Hc] _ [k Hk]].
  - exists []. constructor.
  - exists (c :: k). by constructor.
Qed.

Lemma merged_frame_coercible `{B : Builtins} (scans : list scan)
    (orders : list order) (fr : frame) :
  merged_frame scans orders = Ok fr → Forall coercible scans.
Proof.
  intros H. apply merged_frame_Ok in H as (_ & _ & _ & Hrows & _).
  apply Forall_forall. intros s Hs.
  destruct (records_of_nonempty (orders_frame (kept orders)) s) as [r0 Hr0].
  assert (Hin : r0 ∈ rows (joined scans orders)).
  { simpl. apply list_elem_of_bind. eauto. }
  assert (Hlat : r0 !! "lat" = Some (of_nullable (lat s))
                 ∧ r0 !! "lon" = Some (of_nullable (lon s))).
  { apply records_of_elem in Hr0 as [[_ ->]|(o & _ & ->)];
      by rewrite !scan_columns_kept by column_in. }
  apply list_elem_of_lookup in Hin as [i Hi].
  destruct (Forall2_lookup_l _ _ _ _ _ Hrows Hi) as (r & _ & Hp).
  apply process_row_Ok in Hp
    as (? & x & y & fx & fy & ? & ? & ? & _ & Hx & Hy & Hfx & Hfy & _).
  destruct Hlat as [Hlat Hlon].
  assert (x = of_nullable (lat s)) as -> by congruence.
  assert (y = of_nullable (lon s)) as -> by congruence.
  split; [by rewrite Hfx|by rewrite Hfy].
Qed.

Lemma merged_frame_intro `{B : Builtins} (scans : list scan)
    (orders : list order) :
  scans ≠ [] → Forall (λ o, is_Some (external_id o)) orders →
  Forall coercible scans →
  ∃ r rs, merged_frame scans orders = Ok (DataFrame (row_index r) (r :: rs))
    ∧ Forall2 (λ r0 r', process_row r0 = Ok r')
        (rows (joined scans orders)) (r :: rs).
Proof.
  intros Hne Hids Hco.
  assert (Hall : Forall (λ r0, ∃ r', process_row r0 = Ok r')
                   (rows (joined scans orders))).
  { apply Forall_forall. intros r0 Hr0.
    destruct (joined_row_lookups _ _ _ Hr0)
      as [(s & Hs & Hcode & Hlat & Hlon) Hcols].
    rewrite Forall_forall in Hco. destruct (Hco s Hs) as [Hx Hy].
    destruct (py_float (of_nullable (lat s))) as [fx|] eqn:Hfx; [|discriminate].
    destruct (py_float (of_nullable (lon s))) as [fy|] eqn:Hfy; [|discriminate].
    destruct (Hcols "tariff") as [t Ht]; [column_in|].
    destruct (Hcols "lo_code") as [v Hv]; [column_in|].
    destruct (Hcols "barcode") as [b Hb]; [column_in|].
    destruct (Hcols "claim_id") as [c Hc]; [column_in|].
    eexists. by eapply process_row_intro. }
  apply Forall_exists_Forall2 in Hall as [k Hk].
  destruct k as [|r rs].
  { apply Forall2_length in Hk. simpl in Hk.
    pose proof (records_cover (orders_frame (kept orders)) scans).
    destruct scans; [done|simpl in *; lia]. }
  exists r, rs. split; [|assumption]. unfold merged_frame.
  rewrite (proj2 (drop_retries_orders orders _) (conj Hids eq_refl)).
  rewrite Ok_bind. fold (kept orders).
  assert (Hb : "barcode" ∈ columns (orders_frame (kept orders))) by column_in.
  rewrite (proj2 (merge_left_scans scans (orders_frame (kept orders)) _)
             (conj Hb eq_refl)).
  rewrite Ok_bind. by apply (passes_intro (joined scans orders)).
Qed.

Lemma reconciled_columns `{B : Builtins} (scans : list scan)
    (orders : list order) (r : row) (rs : list row) (k : string) :
  Forall2 (λ r0 r', process_row r0 = Ok r')
    (rows (joined scans orders)) (r :: rs) →
  k ∈ (scan_columns ++ proxy_columns ++ ["scannable_qr"; "pick_status"])%list →
  k ∈ row_index r.
Proof.
  intros H Hk. apply elem_of_row_index.
  destruct (rows (joined scans orders)) as [|r0 rs0] eqn:Hrows;
    [inversion H|].
  assert (Hr0 : r0 ∈ rows (joined scans orders)) by (rewrite Hrows; left).
  apply Forall2_cons_1 in H as [Hp _].
  destruct (process_row_keeps _ _ Hp) as (Hkeep & Hst & Hqr).
  rewrite app_assoc in Hk. apply elem_of_app in Hk as [Hk|Hk].
  - apply Hkeep. by apply (joined_row_lookups scans orders).
  - apply elem_of_cons in Hk as [->|Hk]; [assumption|].
    apply list_elem_of_singleton in Hk as ->. assumption.
Qed.

(** X9: the script shows a page exactly when the scan query returned at
    least one row, every order has an external_id, and the latitude and
    longitude of every scan can be coerced by [float]; what is picked in
    the boxes plays no part. *)
Theorem page_shown_iff `{B : Builtins} (scans : list scan)
    (orders : list order) (sel : selection) :
  (∃ p, script scans orders sel = Ok p) ↔
  scans ≠ []
  ∧ Forall (λ o, is_Some (external_id o)) orders
  ∧ Forall (λ s, is_ok (py_float (of_nullable (lat s))) = true
                 ∧ is_ok (py_float (of_nullable (lon s))) = true) scans.
Proof.
  split.
  - intros [p Hp]. apply script_iff in Hp as (fr & Hfr & _ & _ & _ & Hst & _).
    split; [|split].
    + intros ->. apply merged_frame_Ok in Hfr as (_ & _ & _ & _ & Hempty).
      rewrite (Hempty eq_refl) in Hst. simpl in Hst.
      assert (Hn : "pick_status" ∉ (scan_columns ++ proxy_columns)%list)
        by column_in.
      by destruct Hn.
    + by apply merged_frame_Ok in Hfr as (Hids & _).
    + by apply merged_frame_coercible in Hfr.
  - intros (Hne & Hids & Hco).
    destruct (merged_frame_intro scans orders Hne Hids Hco)
      as (r & rs & Hfr & Hrows).
    eexists. apply script_iff. eexists. split; [exact Hfr|]. simpl.
    pose proof (reconciled_columns scans orders r rs) as Hcol.
    repeat (split; [apply Hcol; [assumption|column_in]|]).
    split; [|reflexivity]. intros k Hk. apply Hcol; [assumption|].
    unfold visible_columns in Hk.
    repeat (apply elem_of_cons in Hk as [->|Hk]; [column_in|]).
    by apply not_elem_of_nil in Hk.
Qed.

(** ** The table *)

(** X10: the table has exactly the twelve visible columns: each of its rows
    is a reconciled record that passed the boxes, cut down to these
    columns with their cells unchanged, in the order of the reconciled
    frame; the position and the other order columns are not shown. *)
Theorem table_shape `{B : Builtins} (scans : list scan) (orders : list order)
    (sel : selection) (p : page) :
  script scans orders sel = Ok p →
  columns (visible_frame p) = visible_columns
  ∧ ∃ fr, merged_frame scans orders = Ok fr ∧
      Forall2 (λ r' r,
        (∀ k, k ∈ visible_columns → r !! k = r' !! k ∧ is_Some (r !! k))
        ∧ (∀ k, k ∉ visible_columns → r !! k = None))
        (List.filter (passes sel) (rows fr)) (rows (visible_frame p)).
Proof.
  intros H. pose proof H as H'.
  apply script_Ok in H as (fr & Hfr & _ & _ & ->). split; [reflexivity|].
  exists fr. split; [assumption|]. simpl.
  apply Forall2_fmap_r, Forall_Forall2_diag, Forall_forall. intros r' Hr'.
  apply list_elem_of_In, filter_In in Hr' as [Hr' _].
  apply list_elem_of_In in Hr'. split.
  - intros k Hk. rewrite visible_part_lookup by assumption.
    split; [reflexivity|].
    destruct (reconciled_row _ _ _ _ Hfr Hr') as (r0 & Hr0 & Hp).
    destruct (process_row_keeps _ _ Hp) as (Hkeep & Hst & Hqr).
    pose proof (proj2 (joined_row_lookups _ _ _ Hr0)) as Hcols.
    unfold visible_columns in Hk.
    repeat (apply elem_of_cons in Hk as [->|Hk];
            [first [assumption | apply Hkeep, Hcols; column_in]|]).
    by apply not_elem_of_nil in Hk.
  - intros k Hk. unfold visible_part. apply map_lookup_filter_None.
    right. intros c _. exact Hk.
Qed.

Lemma table_shape_witness :
  ∃ p, script (B := Sample.builtins) Demo.scans Demo.orders
         Demo.nothing_picked = Ok p
    ∧ columns (visible_frame p) = visible_columns.
Proof.
  eexists. split; [vm_compute; reflexivity|].
  apply (table_shape (B := Sample.builtins) Demo.scans Demo.orders
           Demo.nothing_picked).
  vm_compute. reflexivity.
Defined.

(** ** What the boxes offer *)

Lemma unique_from_elem (seen cs : list cell) (c : cell) :
  c ∈ unique_from seen cs ↔ c ∈ cs ∧ c ∉ seen.
Proof.
  revert seen. induction cs as [|c' cs IH]; intros seen; simpl.
  - split; [intros H; by apply not_elem_of_nil in H|intros [H _]; by apply not_elem_of_nil in H].
  - case_bool_decide as Hc'.
    + rewrite IH, elem_of_cons. split; [tauto|].
      intros [[->|H] Hn]; [done|tauto].
    + rewrite elem_of_cons, IH, !elem_of_cons. split.
      * intros [->|[H Hn]]; [tauto|]. split; [tauto|]. intros Hs. apply Hn. tauto.
      * intros [[->|H] Hn]; [tauto|].
        destruct (decide (c = c')) as [->|Hne]; [tauto|].
        right. split; [assumption|]. intros [?|?]; done.
Qed.

Lemma unique_from_NoDup (seen cs : list cell) : NoDup (unique_from seen cs).
Proof.
  revert seen. induction cs as [|c cs IH]; intros seen; simpl; [constructor|].
  case_bool_decide; [apply IH|]. constructor; [|apply IH].
  rewrite unique_from_elem. intros [_ Hn]. apply Hn. by left.
Qed.

Lemma unique_elem (cs : list cell) (c : cell) : c ∈ unique cs ↔ c ∈ cs.
Proof.
  unfold unique. rewrite unique_from_elem. split; [tauto|].
  intros H. split; [assumption|]. apply not_elem_of_nil.
Qed.

(** X11: a box offers every value of its column once, and picking all the
    values a box offers filters nothing: the frame keeps all its rows, as
    it does when nothing is picked. *)
Theorem all_offered_is_none (fr : frame) (k : string) :
  k ∈ columns fr →
  ∃ offered, options fr k = Ok offered
    ∧ NoDup offered
    ∧ (∀ r, r ∈ rows fr → cell_at r k ∈ offered)
    ∧ narrow fr k offered = Ok (DataFrame (columns fr) (rows fr))
    ∧ narrow fr k [] = Ok fr.
Proof.
  intros Hk. unfold options, getcolumn.
  rewrite bool_decide_eq_true_2 by assumption. simpl. eexists.
  split; [reflexivity|]. split; [apply unique_from_NoDup|].
  assert (Hin : ∀ r, r ∈ rows fr →
            cell_at r k ∈ unique ((λ r : row, default NaN (r !! k)) <$> rows fr)).
  { intros r Hr. apply unique_elem, list_elem_of_fmap. by exists r. }
  split; [exact Hin|]. split; [|reflexivity].
  rewrite narrow_admits by assumption. do 2 f_equal.
  apply filter_true_on. intros r Hr. apply admitsb_admits. right. by apply Hin.
Qed.
